(** * apex/function: function-level operations against the Lambda service

    A shallow embedding of [function/function.go].  Every exported
    operation of [Function] is a computation in a small state monad whose
    state is the outside world: the remote service behind the
    [lambdaiface.LambdaAPI] interface and the disk.  Go panics (nil
    dereference, slice bounds) are an outcome of their own, distinct from
    returned [error] values.

    Two ghost components are threaded next to the outside world: the list of
    service calls issued so far and the list of log entries emitted so far.
    They do not influence any result; they exist so that statements such as
    "exactly one alias write" can be written down. *)

From Stdlib Require Import ZArith.
From stdpp Require Import base strings list gmap.

Abbreviation bytes := (list Byte.byte).

(** ** Errors *)

(** [InvokeError] records an error from an invocation.  The Go field is
    called [Type]; that word is reserved here, hence [Type_]. *)
Record InvokeError := {
  Message : string;   (* json:"errorMessage" *)
  Type_ : string;     (* json:"errorType" *)
  Stack : list string;(* json:"stackTrace" *)
  Handled : bool      (* no tag: decoded from a key "Handled" as well *)
}.

(** Values of Go's [error] interface, by dynamic type.  A nil [error] is
    [None] of [option error]. *)
Inductive error :=
| awserr_Error (Code Msg : string)   (* implements awserr.Error *)
| errorString (s : string)           (* errors.New, fmt.Errorf *)
| InvokeError_ptr (e : InvokeError)  (* *InvokeError *)
| foreign (description : string).    (* any other dynamic type *)

Definition Error (e : error) : string :=
  match e with
  | awserr_Error c m => c +:+ ": " +:+ m
  | errorString s => s
  | InvokeError_ptr e => Message e
  | foreign d => d
  end.

(** ** The AWS SDK types the code touches

    Only the fields read or written by [function.go] are kept.  A Go pointer
    field that the code may find nil is an [option]. *)
Module lambda.

Record FunctionConfiguration := {
  CodeSha256 : option string;
  Version : option string
}.

Record GetFunctionOutput := { Configuration : option FunctionConfiguration }.

Record AliasConfiguration := { FunctionVersion : option string }.

Record ListVersionsByFunctionOutput := {
  Versions : list (option FunctionConfiguration)
}.

Record InvokeOutput := {
  FunctionError : option string;
  LogResult : option string;
  Payload : bytes
}.

Module GetFunctionInput.
Record t := { FunctionName : string }.
End GetFunctionInput.

Module DeleteFunctionInput.
Record t := { FunctionName : string }.
End DeleteFunctionInput.

Module GetAliasInput.
Record t := { FunctionName : string; Name : string }.
End GetAliasInput.

Module ListVersionsByFunctionInput.
Record t := { FunctionName : string }.
End ListVersionsByFunctionInput.

Module UpdateFunctionCodeInput.
Record t := { FunctionName : string; Publish : bool; ZipFile : bytes }.
End UpdateFunctionCodeInput.

Module UpdateFunctionConfigurationInput.
Record t := {
  FunctionName : string;
  MemorySize : Z;
  Timeout : Z;
  Description : string;
  Role : string;
  Handler : string
}.
End UpdateFunctionConfigurationInput.

Module CreateFunctionInput.
Record t := {
  FunctionName : string;
  Description : string;
  MemorySize : Z;
  Timeout : Z;
  Runtime : string;
  Handler : string;
  Role : string;
  Publish : bool;
  Code_ZipFile : bytes
}.
End CreateFunctionInput.

(** [FunctionVersion] is handed over as the pointer the previous call
    returned, so it may be nil. *)
Module CreateAliasInput.
Record t := {
  FunctionName : string;
  FunctionVersion : option string;
  Name : string
}.
End CreateAliasInput.

Module UpdateAliasInput.
Record t := {
  FunctionName : string;
  Name : string;
  FunctionVersion : option string
}.
End UpdateAliasInput.

Module InvokeInput.
Record t := {
  ClientContext : string;
  FunctionName : string;
  InvocationType : string;
  LogType : string;
  Qualifier : string;
  Payload : bytes
}.
End InvokeInput.

(** A service call as it leaves the client. *)
Inductive call :=
| CallGetFunction (i : GetFunctionInput.t)
| CallCreateFunction (i : CreateFunctionInput.t)
| CallDeleteFunction (i : DeleteFunctionInput.t)
| CallUpdateFunctionCode (i : UpdateFunctionCodeInput.t)
| CallUpdateFunctionConfiguration (i : UpdateFunctionConfigurationInput.t)
| CallGetAlias (i : GetAliasInput.t)
| CallCreateAlias (i : CreateAliasInput.t)
| CallUpdateAlias (i : UpdateAliasInput.t)
| CallListVersionsByFunction (i : ListVersionsByFunctionInput.t)
| CallInvoke (i : InvokeInput.t).

(** What a Go method returning a pointer to [T] and an [error] hands back. *)
Definition reply (T : Type) : Type := (option T * option error)%type.

(** [lambdaiface.LambdaAPI], restricted to the methods used.  [W] is the
    state of whatever implements the interface; each method may change
    it. *)
Class LambdaAPI (W : Type) := {
  GetFunction : GetFunctionInput.t → W → reply GetFunctionOutput * W;
  CreateFunction : CreateFunctionInput.t → W → reply FunctionConfiguration * W;
  DeleteFunction : DeleteFunctionInput.t → W → reply unit * W;
  UpdateFunctionCode :
    UpdateFunctionCodeInput.t → W → reply FunctionConfiguration * W;
  UpdateFunctionConfiguration :
    UpdateFunctionConfigurationInput.t → W → reply FunctionConfiguration * W;
  GetAlias : GetAliasInput.t → W → reply AliasConfiguration * W;
  CreateAlias : CreateAliasInput.t → W → reply AliasConfiguration * W;
  UpdateAlias : UpdateAliasInput.t → W → reply AliasConfiguration * W;
  ListVersionsByFunction :
    ListVersionsByFunctionInput.t → W → reply ListVersionsByFunctionOutput * W;
  Invoke : InvokeInput.t → W → reply InvokeOutput * W
}.

End lambda.

(** ** Runtimes ([github.com/apex/apex/runtime]) *)
Module runtime.

(** The optional [CompiledRuntime] methods; they run tools on the disk. *)
Record CompiledRuntime (W : Type) := {
  Build : string → W → option error * W;
  Clean : string → W → option error * W
}.
Arguments Build {W}.
Arguments Clean {W}.

(** A value of interface [Runtime].  [Compiled] is [Some] exactly when
    the dynamic type also implements [CompiledRuntime]. *)
Record Runtime (W : Type) := {
  Name : string;
  Handler : string;
  Shimmed : bool;
  Compiled : option (CompiledRuntime W)
}.
Arguments Name {W}.
Arguments Handler {W}.
Arguments Shimmed {W}.
Arguments Compiled {W}.

End runtime.

(** ** Logging ([github.com/apex/log]) *)
Module log.

Inductive Level := DebugLevel | InfoLevel.

Record Entry := {
  level : Level;
  Fields : list (string * string);
  Msg : string
}.

End log.

(** ** The function package *)

(** Invocation types.  Only [RequestResponse] is typed in the source; the
    other two are untyped string constants, compared as strings. *)
Definition InvocationType := string.
Definition RequestResponse : InvocationType := "RequestResponse".
Definition Event : string := "Event".
Definition DryRun : string := "DryRun".

(** Current alias name. *)
Definition CurrentAlias : string := "current".

(** Config for a Lambda function.  [Memory] and [Timeout] are [int64]; the
    code only compares them with zero and passes them on, so no arithmetic
    and no wrap-around is involved. *)
Record Config := {
  Description : string;
  Runtime : string;   (* validate:"nonzero" *)
  Memory : Z;         (* validate:"nonzero" *)
  Timeout : Z;        (* validate:"nonzero" *)
  Role : string       (* validate:"nonzero" *)
}.


(** ** Pieces of imported packages *)

Module json.

(** What [json.Unmarshal] finds in a JSON object when the target is an
    [InvokeError]: one slot per exported field, [None] when the key is
    missing or null.  The first three fields are found under their tags; the
    untagged [Handled] is found under its own name. *)
Record InvokeErrorKeys := {
  errorMessage : option string;
  errorType : option string;
  stackTrace : option (list string);
  Handled_key : option bool
}.

End json.

Module archive.

(** One file of the archive under construction. *)
Record Entry := { path : string; contents : bytes }.

End archive.

(** An [io.Reader] as handed to the caller, by what it will yield: a reader
    over bytes already in memory ([bytes.NewReader], [*bytes.Buffer]) or a
    base64 decoder over a string. *)
Inductive Reader :=
| bytes_Reader (b : bytes)
| base64_NewDecoder (src : string).

(** Go panics are kept apart from returned errors. *)
Inductive outcome (A : Type) :=
| Done (a : A)
| Panic (reason : string).
Arguments Done {A}.
Arguments Panic {A}.

(** Everything [function.go] imports and that is not a method of the
    service: the standard library, third-party packages, and the sibling
    packages [runtime], [shim] and [utils] of this repository, whose code is
    not part of this file.  Functions that look at the disk or the clock
    take the outside world.  [any] stands for the values passed as
    [interface{}].  [map_range] is the order in which a [range] over a Go
    map visits the given keys: some arrangement of them that the language
    does not fix. *)
Class Packages (W any : Type) := {
  map_range : list string → list string;
  json_Marshal : any → bytes * option error;
  json_Marshal_env : gmap string string → bytes * option error;
  json_Unmarshal_keys : bytes → json.InvokeErrorKeys + string;
  json_Decode_Config : bytes → Config → Config * option error;
  base64_EncodeToString : bytes → string;
  base64_Decode : string → bytes * option error;
  humanize_Bytes : Z → string;
  filepath_Join : string → string → string;
  os_Open : string → W → bytes + error;
  utils_Sha256 : bytes → string;
  runtime_ByName : string → option (runtime.Runtime W) * option error;
  runtime_Detect : string → W → string * option error;
  shim_Asset : string → option bytes;
  archive_AddDir : string → W → list archive.Entry * option error;
  archive_Close : list archive.Entry → W → bytes * option error
}.

(** [json.Unmarshal(payload, e)] for [e : *InvokeError]: keys present in the
    payload overwrite the fields of [e], the others are left as they were.
    A payload that does not decode leaves an error of the json package. *)
Definition json_Unmarshal `{Packages W any} (payload : bytes) (e : InvokeError)
  : InvokeError * option error :=
  match json_Unmarshal_keys payload with
  | inl k =>
    ({| Message := default (Message e) (json.errorMessage k);
        Type_ := default (Type_ e) (json.errorType k);
        Stack := default (Stack e) (json.stackTrace k);
        Handled := default (Handled e) (json.Handled_key k) |}, None)
  | inr d => (e, Some (foreign d))
  end.

(** [ioutil.ReadAll]. *)
Definition ioutil_ReadAll `{Packages W any} (r : Reader) : bytes * option error :=
  match r with
  | bytes_Reader b => (b, None)
  | base64_NewDecoder s => base64_Decode s
  end.

(** [validator.Validate(&f.Config)]: the tag [nonzero] rejects the zero
    value of the field's type, [""] for a string and [0] for an [int64].
    [nonzero_violations] names the offending fields, in the order of the
    struct. *)
Definition nonzero_violations (c : Config) : list string :=
  (if String.eqb (Runtime c) "" then ["Runtime"] else []) ++
  (if Z.eqb (Memory c) 0 then ["Memory"] else []) ++
  (if Z.eqb (Timeout c) 0 then ["Timeout"] else []) ++
  (if String.eqb (Role c) "" then ["Role"] else []).

(** The error is a map from the offending fields to their errors.  Its text
    lists every one of them as "Field: zero value", joined by ", ", in the
    order in which the range over the map visits them. *)
Definition validator_Validate `{Packages W any} (c : Config) : option error :=
  match nonzero_violations c with
  | [] => None
  | fields =>
    Some (foreign (String.concat ", "
                     ((λ field, field +:+ ": zero value") <$> map_range fields)))
  end.

Section function.

Context {W any : Type} `{!lambda.LambdaAPI W} `{!Packages W any}.

(** [Function] represents a Lambda function.  [Service] is the class
    instance above and its state lives in the world; [Log] keeps the
    fields the logger was given; [runtime] is nil until [Open] sets it;
    [env] is a nil map until [SetEnv] makes one. *)
Record Function := {
  config : Config;
  Name : string;
  FunctionName : string;
  Path : string;
  Log : list (string * string);
  runtime : option (runtime.Runtime W);
  env : option (gmap string string)
}.

(** *** The monad *)

Record world := {
  ext : W;
  calls : list lambda.call;
  logged : list log.Entry
}.

Definition M (A : Type) : Type := world → outcome A * world.

#[global] Instance M_ret : MRet M := λ A a w, (Done a, w).

#[global] Instance M_bind : MBind M := λ A B k m w,
  match m w with
  | (Done a, w') => k a w'
  | (Panic r, w') => (Panic r, w')
  end.

Definition panic {A} (reason : string) : M A := λ w, (Panic reason, w).

(** Dereference of a possibly nil pointer, or a method call on a possibly
    nil interface value. *)
Definition deref {A} (p : option A) : M A :=
  match p with
  | Some a => mret a
  | None => panic "invalid memory address or nil pointer dereference"
  end.

(** [s[n:]] *)
Definition slice_from {A} (n : nat) (s : list A) : M (list A) :=
  if decide (n ≤ length s) then mret (drop n s)
  else panic "slice bounds out of range".

(** [s[i]] *)
Definition index {A} (s : list A) (i : nat) : M A :=
  match s !! i with
  | Some a => mret a
  | None => panic "index out of range"
  end.

(** One round trip to the service, noted in the ghost call list. *)
Definition roundtrip {T} (c : lambda.call) (method : W → lambda.reply T * W)
  : M (lambda.reply T) :=
  λ w, let '(r, x) := method (ext w) in
       (Done r, {| ext := x; calls := calls w ++ [c]; logged := logged w |}).

(** An operation on the local machine that may change it (build tools). *)
Definition local_op {T} (op : W → T * W) : M T :=
  λ w, let '(r, x) := op (ext w) in
       (Done r, {| ext := x; calls := calls w; logged := logged w |}).

(** An operation that only looks at the local machine. *)
Definition local_read {T} (op : W → T) : M T := λ w, (Done (op (ext w)), w).

Definition emit (l : log.Level) (f : Function) (msg : string) : M unit :=
  λ w, (Done tt,
        {| ext := ext w; calls := calls w;
           logged := logged w ++
             [{| log.level := l; log.Fields := Log f; log.Msg := msg |}] |}).

Definition Log_Info := emit log.InfoLevel.
Definition Log_Debug := emit log.DebugLevel.

(** *** Open and SetEnv *)

Definition set_config (f : Function) (c : Config) : Function :=
  {| config := c; Name := Name f; FunctionName := FunctionName f;
     Path := Path f; Log := Log f; runtime := runtime f; env := env f |}.

Definition set_Runtime (c : Config) (name : string) : Config :=
  {| Description := Description c; Runtime := name; Memory := Memory c;
     Timeout := Timeout c; Role := Role c |}.

(** Open the function.json file and prime the config.  The receiver is a
    pointer, so the function as left behind is returned next to the
    error. *)
Definition Open (f : Function) : M (Function * option error) :=
  p ← local_read (os_Open (filepath_Join (Path f) "function.json"));
  let '(f, err) :=
    match p with
    | inl file =>
      let '(c, err) := json_Decode_Config file (config f) in
      (set_config f c, err)
    | inr _ => (f, None)
    end in
  match err with
  | Some e => mret (f, Some e)
  | None =>
    f ← (if String.eqb (Runtime (config f)) "" then
           detected ← local_read (runtime_Detect (Path f));
           match detected with
           | (runtimeName, None) =>
             mret (set_config f (set_Runtime (config f) runtimeName))
           | (_, Some _) => mret f
           end
         else mret f);
    match validator_Validate (config f) with
    | Some e =>
      mret (f, Some (errorString
              ("error opening function " +:+ Name f +:+ ": " +:+ Error e)))
    | None =>
      let '(r, err) := runtime_ByName (Runtime (config f)) in
      match err with
      | Some e => mret (f, Some e)
      | None =>
        mret ({| config := config f; Name := Name f;
                 FunctionName := FunctionName f; Path := Path f;
                 Log := Log f ++ [("function", Name f)];
                 runtime := r; env := env f |}, None)
      end
    end
  end.

(** SetEnv sets environment variable [name] to [value]. *)
Definition SetEnv (f : Function) (name value : string) : Function :=
  {| config := config f; Name := Name f; FunctionName := FunctionName f;
     Path := Path f; Log := Log f; runtime := runtime f;
     env := Some (<[name := value]> (default ∅ (env f))) |}.

(** *** Packaging *)

(** Zip returns the zipped contents of the function.  The zip writer is the
    list of entries added so far; closing it yields the buffer. *)
Definition Zip (f : Function) : M (option Reader * option error) :=
  let zip : list archive.Entry := [] in
  err ← match runtime f ≫= runtime.Compiled with
        | Some r =>
          Log_Debug f "compiling";;
          local_op (runtime.Build r (Path f))
        | None => mret None
        end;
  match err with
  | Some e => mret (None, Some (errorString ("compiling: " +:+ Error e)))
  | None =>
    '(zip, err) ← match env f with
                  | Some m =>
                    Log_Debug f "adding .env.json";;
                    let '(b, err) := json_Marshal_env m in
                    match err with
                    | Some e => mret (zip, Some e)
                    | None =>
                      mret (zip ++ [{| archive.path := ".env.json";
                                       archive.contents := b |}], None)
                    end
                  | None => mret (zip, None)
                  end;
    match err with
    | Some e => mret (None, Some e)
    | None =>
      r ← deref (runtime f);
      zip ← (if runtime.Shimmed r then
               Log_Debug f "adding nodejs shim";;
               a ← deref (shim_Asset "index.js");
               let zip := zip ++ [{| archive.path := "index.js";
                                     archive.contents := a |}] in
               b ← deref (shim_Asset "byline.js");
               mret (zip ++ [{| archive.path := "byline.js";
                                archive.contents := b |}])
             else mret zip);
      '(added, err) ← local_read (archive_AddDir (Path f));
      match err with
      | Some e => mret (None, Some e)
      | None =>
        let zip := zip ++ added in
        '(buf, err) ← local_read (archive_Close zip);
        match err with
        | Some e => mret (None, Some e)
        | None => mret (Some (bytes_Reader buf), None)
        end
      end
    end
  end.

(** ZipBytes returns the generated zip as bytes. *)
Definition ZipBytes (f : Function) : M (bytes * option error) :=
  Log_Debug f "creating zip";;
  '(r, err) ← Zip f;
  match err with
  | Some e => mret ([], Some e)
  | None =>
    r ← deref r;
    let '(b, err) := ioutil_ReadAll r in
    match err with
    | Some e => mret ([], Some e)
    | None =>
      Log_Info f ("created zip (" +:+
                  humanize_Bytes (Z.of_nat (length b)) +:+ ")");;
      mret (b, None)
    end
  end.

(** Clean removes build artifacts from compiled runtimes. *)
Definition Clean (f : Function) : M (option error) :=
  match runtime f ≫= runtime.Compiled with
  | Some r => local_op (runtime.Clean r (Path f))
  | None => mret None
  end.

(** *** Talking to the service *)

(** The request structs, as the operations fill them in. *)
Definition GetFunctionInput (f : Function) : lambda.GetFunctionInput.t :=
  {| lambda.GetFunctionInput.FunctionName := FunctionName f |}.

Definition DeleteFunctionInput (f : Function) : lambda.DeleteFunctionInput.t :=
  {| lambda.DeleteFunctionInput.FunctionName := FunctionName f |}.

Definition UpdateFunctionCodeInput (f : Function) (zip : bytes)
  : lambda.UpdateFunctionCodeInput.t :=
  {| lambda.UpdateFunctionCodeInput.FunctionName := FunctionName f;
     lambda.UpdateFunctionCodeInput.Publish := true;
     lambda.UpdateFunctionCodeInput.ZipFile := zip |}.

Definition UpdateAliasInput (f : Function) (version : option string)
  : lambda.UpdateAliasInput.t :=
  {| lambda.UpdateAliasInput.FunctionName := FunctionName f;
     lambda.UpdateAliasInput.Name := CurrentAlias;
     lambda.UpdateAliasInput.FunctionVersion := version |}.

Definition CreateFunctionInput (f : Function) (r : runtime.Runtime W)
  (zip : bytes) : lambda.CreateFunctionInput.t :=
  {| lambda.CreateFunctionInput.FunctionName := FunctionName f;
     lambda.CreateFunctionInput.Description := Description (config f);
     lambda.CreateFunctionInput.MemorySize := Memory (config f);
     lambda.CreateFunctionInput.Timeout := Timeout (config f);
     lambda.CreateFunctionInput.Runtime := runtime.Name r;
     lambda.CreateFunctionInput.Handler := runtime.Handler r;
     lambda.CreateFunctionInput.Role := Role (config f);
     lambda.CreateFunctionInput.Publish := true;
     lambda.CreateFunctionInput.Code_ZipFile := zip |}.

Definition CreateAliasInput (f : Function) (version : option string)
  : lambda.CreateAliasInput.t :=
  {| lambda.CreateAliasInput.FunctionName := FunctionName f;
     lambda.CreateAliasInput.FunctionVersion := version;
     lambda.CreateAliasInput.Name := CurrentAlias |}.

Definition UpdateFunctionConfigurationInput (f : Function)
  (r : runtime.Runtime W) : lambda.UpdateFunctionConfigurationInput.t :=
  {| lambda.UpdateFunctionConfigurationInput.FunctionName := FunctionName f;
     lambda.UpdateFunctionConfigurationInput.MemorySize := Memory (config f);
     lambda.UpdateFunctionConfigurationInput.Timeout := Timeout (config f);
     lambda.UpdateFunctionConfigurationInput.Description :=
       Description (config f);
     lambda.UpdateFunctionConfigurationInput.Role := Role (config f);
     lambda.UpdateFunctionConfigurationInput.Handler := runtime.Handler r |}.

Definition GetAliasInput (f : Function) : lambda.GetAliasInput.t :=
  {| lambda.GetAliasInput.FunctionName := FunctionName f;
     lambda.GetAliasInput.Name := CurrentAlias |}.

Definition ListVersionsByFunctionInput (f : Function)
  : lambda.ListVersionsByFunctionInput.t :=
  {| lambda.ListVersionsByFunctionInput.FunctionName := FunctionName f |}.

Definition InvokeInput (f : Function) (eventBytes contextBytes : bytes)
  (kind : InvocationType) : lambda.InvokeInput.t :=
  {| lambda.InvokeInput.ClientContext := base64_EncodeToString contextBytes;
     lambda.InvokeInput.FunctionName := FunctionName f;
     lambda.InvokeInput.InvocationType := kind;
     lambda.InvokeInput.LogType := "Tail";
     lambda.InvokeInput.Qualifier := CurrentAlias;
     lambda.InvokeInput.Payload := eventBytes |}.

(** Info returns the function information. *)
Definition Info (f : Function) : M (lambda.reply lambda.GetFunctionOutput) :=
  Log_Debug f "fetching config";;
  let i := GetFunctionInput f in
  roundtrip (lambda.CallGetFunction i) (lambda.GetFunction i).

(** Update the function with the given [zip]. *)
Definition Update (f : Function) (zip : bytes) : M (option error) :=
  Log_Info f "updating function";;
  let i := UpdateFunctionCodeInput f zip in
  '(updated, err) ← roundtrip (lambda.CallUpdateFunctionCode i)
                              (lambda.UpdateFunctionCode i);
  match err with
  | Some e => mret (Some e)
  | None =>
    Log_Info f "updating alias";;
    u ← deref updated;
    let a := UpdateAliasInput f (lambda.Version u) in
    '(_, err) ← roundtrip (lambda.CallUpdateAlias a) (lambda.UpdateAlias a);
    mret err
  end.

(** Create the function with the given [zip]. *)
Definition Create (f : Function) (zip : bytes) : M (option error) :=
  Log_Info f "creating function";;
  r ← deref (runtime f);
  let i := CreateFunctionInput f r zip in
  '(created, err) ← roundtrip (lambda.CallCreateFunction i)
                              (lambda.CreateFunction i);
  match err with
  | Some e => mret (Some e)
  | None =>
    Log_Info f "creating alias";;
    c ← deref created;
    let a := CreateAliasInput f (lambda.Version c) in
    '(_, err) ← roundtrip (lambda.CallCreateAlias a) (lambda.CreateAlias a);
    mret err
  end.

(** The test [err.(awserr.Error)] followed by
    [e.Code() == "ResourceNotFoundException"]. *)
Definition is_ResourceNotFound (err : option error) : bool :=
  match err with
  | Some (awserr_Error code _) => String.eqb code "ResourceNotFoundException"
  | _ => false
  end.

(** DeployCode generates a zip and creates or updates the function. *)
Definition DeployCode (f : Function) : M (option error) :=
  Log_Info f "deploying";;
  '(zip, err) ← ZipBytes f;
  match err with
  | Some e => mret (Some e)
  | None =>
    '(info, err) ← Info f;
    if is_ResourceNotFound err then Create f zip
    else
      match err with
      | Some e => mret (Some e)
      | None =>
        i ← deref info;
        c ← deref (lambda.Configuration i);
        remoteHash ← deref (lambda.CodeSha256 c);
        let localHash := utils_Sha256 zip in
        if String.eqb localHash remoteHash then
          Log_Info f "unchanged";;
          mret None
        else Update f zip
      end
  end.

(** DeployConfig deploys changes to configuration. *)
Definition DeployConfig (f : Function) : M (option error) :=
  Log_Info f "deploying config";;
  r ← deref (runtime f);
  let i := UpdateFunctionConfigurationInput f r in
  '(_, err) ← roundtrip (lambda.CallUpdateFunctionConfiguration i)
                        (lambda.UpdateFunctionConfiguration i);
  mret err.

(** Deploy code and then configuration. *)
Definition Deploy (f : Function) : M (option error) :=
  err ← DeployCode f;
  match err with
  | Some e => mret (Some e)
  | None => DeployConfig f
  end.

(** Delete the function including all its versions. *)
Definition Delete (f : Function) : M (option error) :=
  Log_Info f "deleting";;
  let i := DeleteFunctionInput f in
  '(_, err) ← roundtrip (lambda.CallDeleteFunction i) (lambda.DeleteFunction i);
  mret err.

(** Invoke the remote Lambda function, returning the response and logs, if
    any. *)
Definition Invoke (f : Function) (event context : any) (kind : InvocationType)
  : M (option Reader * option Reader * option error) :=
  let '(eventBytes, err) := json_Marshal event in
  match err with
  | Some e => mret (None, None, Some e)
  | None =>
    let '(contextBytes, err) := json_Marshal context in
    match err with
    | Some e => mret (None, None, Some e)
    | None =>
      let i := InvokeInput f eventBytes contextBytes kind in
      '(res, err) ← roundtrip (lambda.CallInvoke i) (lambda.Invoke i);
      match err with
      | Some e => mret (None, None, Some e)
      | None =>
        res ← deref res;
        match lambda.FunctionError res with
        | Some functionError =>
          let e := {| Message := ""; Type_ := ""; Stack := [];
                      Handled := String.eqb functionError "Handled" |} in
          let '(e, err) := json_Unmarshal (lambda.Payload res) e in
          match err with
          | Some err => mret (None, None, Some err)
          | None => mret (None, None, Some (InvokeError_ptr e))
          end
        | None =>
          if String.eqb kind Event then
            mret (Some (bytes_Reader []), Some (bytes_Reader []), None)
          else
            logResult ← deref (lambda.LogResult res);
            let logs := base64_NewDecoder logResult in
            let reply := bytes_Reader (lambda.Payload res) in
            mret (Some reply, Some logs, None)
        end
      end
    end
  end.

(** *** Rollback *)

(** Rollback the function to the previous. *)
Definition Rollback (f : Function) : M (option error) :=
  Log_Info f "rolling back";;
  '(alias, err) ← roundtrip (lambda.CallGetAlias (GetAliasInput f))
                            (lambda.GetAlias (GetAliasInput f));
  match err with
  | Some e => mret (Some e)
  | None =>
    alias ← deref alias;
    current ← deref (lambda.FunctionVersion alias);
    Log_Info f ("current version: " +:+ current);;
    let i := ListVersionsByFunctionInput f in
    '(list, err) ← roundtrip (lambda.CallListVersionsByFunction i)
                             (lambda.ListVersionsByFunction i);
    match err with
    | Some e => mret (Some e)
    | None =>
      list ← deref list;
      versions ← slice_from 1 (lambda.Versions list); (* remove $LATEST *)
      if decide (length versions < 2) then
        mret (Some (errorString "Can't rollback. Only one version deployed."))
      else
        latest ← index versions (length versions - 1) ≫= deref;
        latest ← deref (lambda.Version latest);
        prev ← index versions (length versions - 2) ≫= deref;
        prev ← deref (lambda.Version prev);
        let rollback := if String.eqb current latest then prev else latest in
        Log_Info f ("rollback to version: " +:+ rollback);;
        let a := UpdateAliasInput f (Some rollback) in
        '(_, err) ← roundtrip (lambda.CallUpdateAlias a) (lambda.UpdateAlias a);
        mret err
    end
  end.

(** RollbackVersion the function to the specified version. *)
Definition RollbackVersion (f : Function) (version : string) : M (option error) :=
  Log_Info f "rolling back";;
  '(alias, err) ← roundtrip (lambda.CallGetAlias (GetAliasInput f))
                            (lambda.GetAlias (GetAliasInput f));
  match err with
  | Some e => mret (Some e)
  | None =>
    alias ← deref alias;
    current ← deref (lambda.FunctionVersion alias);
    Log_Info f ("current version: " +:+ current);;
    if String.eqb version current then
      mret (Some (errorString "Specified version currently deployed."))
    else
      let a := UpdateAliasInput f (Some version) in
      '(_, err) ← roundtrip (lambda.CallUpdateAlias a) (lambda.UpdateAlias a);
      mret err
  end.

(** *** Observing a run *)

(** The returned values (or the panic) of running [m] from [w]. *)
Definition result {A} (m : M A) (w : world) : outcome A := (m w).1.

(** The service calls [m] issues when run from [w], oldest first. *)
Definition issued {A} (m : M A) (w : world) : list lambda.call :=
  drop (length (calls w)) (calls (m w).2).

(** A computation is quiet when it never reaches the service. *)
Definition quiet {A} (m : M A) : Prop := ∀ w, calls (m w).2 = calls w.

(** A computation only ever adds to the list of calls. *)
Definition appends {A} (m : M A) : Prop :=
  ∀ w, calls (m w).2 = calls w ++ issued m w.

(** A computation is confined to [P] when every call it issues satisfies
    [P]. *)
Definition confined (P : lambda.call → Prop) {A} (m : M A) : Prop :=
  ∀ w, ∃ cs, calls (m w).2 = calls w ++ cs ∧ Forall P cs.

(** [c] is the configuration [Open] works with once it has looked for
    function.json: the given one if the file cannot be opened, the decoded
    one if it decodes. *)
Definition loaded (f : Function) (w : world) (c : Config) : Prop :=
  (∃ e, os_Open (filepath_Join (Path f) "function.json") (ext w) = inr e ∧
        c = config f) ∨
  (∃ file, os_Open (filepath_Join (Path f) "function.json") (ext w) = inl file ∧
           json_Decode_Config file (config f) = (c, None)).

End function.

Arguments Function : clear implicits.
Arguments M : clear implicits.
Arguments world : clear implicits.

(** ** Reading a list of calls *)

(** The name of the interface method behind a call. *)
Definition method (c : lambda.call) : string :=
  match c with
  | lambda.CallGetFunction _ => "GetFunction"
  | lambda.CallCreateFunction _ => "CreateFunction"
  | lambda.CallDeleteFunction _ => "DeleteFunction"
  | lambda.CallUpdateFunctionCode _ => "UpdateFunctionCode"
  | lambda.CallUpdateFunctionConfiguration _ => "UpdateFunctionConfiguration"
  | lambda.CallGetAlias _ => "GetAlias"
  | lambda.CallCreateAlias _ => "CreateAlias"
  | lambda.CallUpdateAlias _ => "UpdateAlias"
  | lambda.CallListVersionsByFunction _ => "ListVersionsByFunction"
  | lambda.CallInvoke _ => "Invoke"
  end.

(** How many calls of [cs] go to the method called [name]. *)
Definition times (name : string) (cs : list lambda.call) : nat :=
  length (List.filter (λ c, String.eqb (method c) name) cs).

(** Calls that change the function, its code, its versions or its aliases
    on the remote side. *)
Definition mutating (c : lambda.call) : bool :=
  match c with
  | lambda.CallCreateFunction _ | lambda.CallDeleteFunction _
  | lambda.CallUpdateFunctionCode _ | lambda.CallUpdateFunctionConfiguration _
  | lambda.CallCreateAlias _ | lambda.CallUpdateAlias _ => true
  | lambda.CallGetFunction _ | lambda.CallGetAlias _
  | lambda.CallListVersionsByFunction _ | lambda.CallInvoke _ => false
  end.

(** An alias write, as the pair of the alias name and the version it is
    pointed at. *)
Definition alias_write (c : lambda.call) : option (string * option string) :=
  match c with
  | lambda.CallCreateAlias i =>
    Some (lambda.CreateAliasInput.Name i, lambda.CreateAliasInput.FunctionVersion i)
  | lambda.CallUpdateAlias i =>
    Some (lambda.UpdateAliasInput.Name i, lambda.UpdateAliasInput.FunctionVersion i)
  | _ => None
  end.

Definition alias_writes (cs : list lambda.call)
  : list (string * option string) := omap alias_write cs.

(** How many entries of an archive sit at [name]. *)
Definition entries_at (name : string) (zip : list archive.Entry) : nat :=
  length (List.filter (λ e, String.eqb (archive.path e) name) zip).

(** The calls a code deployment may issue: the query, the two publishing
    calls, and alias writes that name the current alias. *)
Definition deploy_call (c : lambda.call) : bool :=
  match c with
  | lambda.CallGetFunction _ | lambda.CallCreateFunction _
  | lambda.CallUpdateFunctionCode _ => true
  | lambda.CallCreateAlias i =>
    String.eqb (lambda.CreateAliasInput.Name i) CurrentAlias
  | lambda.CallUpdateAlias i =>
    String.eqb (lambda.UpdateAliasInput.Name i) CurrentAlias
  | _ => false
  end.

(** The calls a rollback may issue: the two reads, and an update of the
    current alias. *)
Definition rollback_call (c : lambda.call) : bool :=
  match c with
  | lambda.CallGetAlias i =>
    String.eqb (lambda.GetAliasInput.Name i) CurrentAlias
  | lambda.CallListVersionsByFunction _ => true
  | lambda.CallUpdateAlias i =>
    String.eqb (lambda.UpdateAliasInput.Name i) CurrentAlias
  | _ => false
  end.

(** ** A stand-in service and machine

    A test double in the manner of a Go mock of [lambdaiface.LambdaAPI]: the
    world is a table of canned answers, every method hands back its entry and
    leaves the table as it is.  The packages are stood in for by the simplest
    functions of the right shape.  It is used to run the operations on
    concrete inputs. *)
Module stub.

Record table := {
  getFunction : lambda.reply lambda.GetFunctionOutput;
  createFunction : lambda.reply lambda.FunctionConfiguration;
  updateFunctionCode : lambda.reply lambda.FunctionConfiguration;
  getAlias : lambda.reply lambda.AliasConfiguration;
  createAlias : lambda.reply lambda.AliasConfiguration;
  updateAlias : lambda.reply lambda.AliasConfiguration;
  listVersions : lambda.reply lambda.ListVersionsByFunctionOutput;
  invoke : lambda.reply lambda.InvokeOutput;
  function_json : bytes + error;
  directory : list archive.Entry
}.

#[global] Instance service : lambda.LambdaAPI table := {|
  lambda.GetFunction _ t := (getFunction t, t);
  lambda.CreateFunction _ t := (createFunction t, t);
  lambda.DeleteFunction _ t := ((Some tt, None), t);
  lambda.UpdateFunctionCode _ t := (updateFunctionCode t, t);
  lambda.UpdateFunctionConfiguration _ t := ((None, None), t);
  lambda.GetAlias _ t := (getAlias t, t);
  lambda.CreateAlias _ t := (createAlias t, t);
  lambda.UpdateAlias _ t := (updateAlias t, t);
  lambda.ListVersionsByFunction _ t := (listVersions t, t);
  lambda.Invoke _ t := (invoke t, t)
|}.

(** An interpreted runtime: not compiled, not shimmed. *)
Definition nodejs : runtime.Runtime table :=
  {| runtime.Name := "nodejs"; runtime.Handler := "index.handle";
     runtime.Shimmed := false; runtime.Compiled := None |}.

(** A compiled and shimmed runtime whose build always succeeds. *)
Definition golang : runtime.Runtime table :=
  {| runtime.Name := "golang"; runtime.Handler := "index.handle";
     runtime.Shimmed := true;
     runtime.Compiled :=
       Some {| runtime.Build _ t := (None, t);
               runtime.Clean _ t := (None, t) |} |}.

(** The payload [{}] and the payload [{"Handled":true}], byte by byte. *)
Definition payload_empty_object : bytes := [Byte.x7b; Byte.x7d].
Definition payload_handled_true : bytes :=
  [Byte.x7b; Byte.x22; Byte.x48; Byte.x61; Byte.x6e; Byte.x64; Byte.x6c;
   Byte.x65; Byte.x64; Byte.x22; Byte.x3a; Byte.x74; Byte.x72; Byte.x75;
   Byte.x65; Byte.x7d].

(** The payload
    [{"errorMessage":"boom","errorType":"Error","stackTrace":["at handler"]}],
    byte by byte. *)
Definition payload_boom : bytes :=
  [Byte.x7b; Byte.x22; Byte.x65; Byte.x72; Byte.x72; Byte.x6f; Byte.x72;
   Byte.x4d; Byte.x65; Byte.x73; Byte.x73; Byte.x61; Byte.x67; Byte.x65;
   Byte.x22; Byte.x3a; Byte.x22; Byte.x62; Byte.x6f; Byte.x6f; Byte.x6d;
   Byte.x22; Byte.x2c; Byte.x22; Byte.x65; Byte.x72; Byte.x72; Byte.x6f;
   Byte.x72; Byte.x54; Byte.x79; Byte.x70; Byte.x65; Byte.x22; Byte.x3a;
   Byte.x22; Byte.x45; Byte.x72; Byte.x72; Byte.x6f; Byte.x72; Byte.x22;
   Byte.x2c; Byte.x22; Byte.x73; Byte.x74; Byte.x61; Byte.x63; Byte.x6b;
   Byte.x54; Byte.x72; Byte.x61; Byte.x63; Byte.x65; Byte.x22; Byte.x3a;
   Byte.x5b; Byte.x22; Byte.x61; Byte.x74; Byte.x20; Byte.x68; Byte.x61;
   Byte.x6e; Byte.x64; Byte.x6c; Byte.x65; Byte.x72; Byte.x22; Byte.x5d;
   Byte.x7d].

Definition no_keys : json.InvokeErrorKeys :=
  {| json.errorMessage := None; json.errorType := None;
     json.stackTrace := None; json.Handled_key := None |}.

Definition same_bytes (a b : bytes) : bool :=
  bool_decide (Byte.to_N <$> a = Byte.to_N <$> b).

(** The decoder knows four payloads: the three above, and the empty input,
    on which [json.Unmarshal] reports an unexpected end of input.
    Everything else is taken for a syntax error. *)
Definition unmarshal_keys (payload : bytes) : json.InvokeErrorKeys + string :=
  if same_bytes payload [] then inr "unexpected end of JSON input"
  else if same_bytes payload payload_empty_object then inl no_keys
  else if same_bytes payload payload_handled_true then
    inl {| json.errorMessage := None; json.errorType := None;
           json.stackTrace := None; json.Handled_key := Some true |}
  else if same_bytes payload payload_boom then
    inl {| json.errorMessage := Some "boom"; json.errorType := Some "Error";
           json.stackTrace := Some ["at handler"]; json.Handled_key := None |}
  else inr "invalid character".

#[global] Instance packages : Packages table string := {|
  map_range fields := fields;
  json_Marshal s := (String.list_byte_of_string s, None);
  json_Marshal_env _ := (payload_empty_object, None);
  json_Unmarshal_keys := unmarshal_keys;
  json_Decode_Config _ c := (c, None);
  base64_EncodeToString := String.string_of_list_byte;
  base64_Decode s := (String.list_byte_of_string s, None);
  humanize_Bytes _ := "some bytes";
  filepath_Join dir file := dir +:+ "/" +:+ file;
  os_Open _ t := function_json t;
  utils_Sha256 := String.string_of_list_byte;
  runtime_ByName name :=
    if String.eqb name "nodejs" then (Some nodejs, None)
    else if String.eqb name "golang" then (Some golang, None)
    else (None, Some (errorString "invalid runtime"));
  runtime_Detect _ _ := ("", Some (errorString "no runtime detected"));
  shim_Asset name :=
    if String.eqb name "index.js" then Some [Byte.x31]
    else if String.eqb name "byline.js" then Some [Byte.x32]
    else None;
  archive_AddDir _ t := (directory t, None);
  archive_Close zip _ := (concat (archive.contents <$> zip), None)
|}.

Definition version (v : string) : option lambda.FunctionConfiguration :=
  Some {| lambda.CodeSha256 := None; lambda.Version := Some v |}.

Definition alias (v : string) : lambda.reply lambda.AliasConfiguration :=
  (Some {| lambda.FunctionVersion := Some v |}, None).

(** A remote that holds versions 1, 2 and 3 of a function whose code hashes
    to ["abc"], with alias "current" on version 3; a disk without
    function.json and with one source file. *)
Definition remote : table :=
  {| getFunction :=
       (Some {| lambda.Configuration :=
                  Some {| lambda.CodeSha256 := Some "abc";
                          lambda.Version := Some "$LATEST" |} |}, None);
     createFunction := (version "1", None);
     updateFunctionCode := (version "4", None);
     getAlias := alias "3";
     createAlias := alias "1";
     updateAlias := alias "4";
     listVersions :=
       (Some {| lambda.Versions :=
                  [version "$LATEST"; version "1"; version "2"; version "3"] |},
        None);
     invoke := (Some {| lambda.FunctionError := None;
                        lambda.LogResult := Some "bG9n";
                        lambda.Payload := payload_empty_object |}, None);
     function_json := inr (foreign "open function.json: no such file");
     directory := [{| archive.path := "lib.js";
                      archive.contents := String.list_byte_of_string "abc" |}] |}.

(** The same remote with one canned answer replaced. *)
Definition with_getFunction (r : lambda.reply lambda.GetFunctionOutput)
  (t : table) : table :=
  {| getFunction := r; createFunction := createFunction t;
     updateFunctionCode := updateFunctionCode t; getAlias := getAlias t;
     createAlias := createAlias t; updateAlias := updateAlias t;
     listVersions := listVersions t; invoke := invoke t;
     function_json := function_json t; directory := directory t |}.

Definition with_publish (r : lambda.reply lambda.FunctionConfiguration)
  (t : table) : table :=
  {| getFunction := getFunction t; createFunction := r;
     updateFunctionCode := r; getAlias := getAlias t;
     createAlias := createAlias t; updateAlias := updateAlias t;
     listVersions := listVersions t; invoke := invoke t;
     function_json := function_json t; directory := directory t |}.

Definition with_getAlias (r : lambda.reply lambda.AliasConfiguration)
  (t : table) : table :=
  {| getFunction := getFunction t; createFunction := createFunction t;
     updateFunctionCode := updateFunctionCode t; getAlias := r;
     createAlias := createAlias t; updateAlias := updateAlias t;
     listVersions := listVersions t; invoke := invoke t;
     function_json := function_json t; directory := directory t |}.

Definition with_listVersions (vs : list (option lambda.FunctionConfiguration))
  (t : table) : table :=
  {| getFunction := getFunction t; createFunction := createFunction t;
     updateFunctionCode := updateFunctionCode t; getAlias := getAlias t;
     createAlias := createAlias t; updateAlias := updateAlias t;
     listVersions := (Some {| lambda.Versions := vs |}, None);
     invoke := invoke t;
     function_json := function_json t; directory := directory t |}.

Definition with_invoke (r : lambda.reply lambda.InvokeOutput)
  (t : table) : table :=
  {| getFunction := getFunction t; createFunction := createFunction t;
     updateFunctionCode := updateFunctionCode t; getAlias := getAlias t;
     createAlias := createAlias t; updateAlias := updateAlias t;
     listVersions := listVersions t; invoke := r;
     function_json := function_json t; directory := directory t |}.

(** A remote that does not know the function. *)
Definition absent : table :=
  with_getFunction
    (None, Some (awserr_Error "ResourceNotFoundException" "Function not found"))
    remote.

(** A remote that refuses the query. *)
Definition denied : table :=
  with_getFunction
    (None, Some (awserr_Error "AccessDeniedException" "not authorized"))
    remote.

(** A remote whose code hashes to something else than the local artifact. *)
Definition stale : table :=
  with_getFunction
    (Some {| lambda.Configuration :=
               Some {| lambda.CodeSha256 := Some "old";
                       lambda.Version := Some "$LATEST" |} |}, None)
    remote.

(** A remote that refuses to publish code. *)
Definition frozen : table :=
  with_publish (None, Some (awserr_Error "ServiceException" "try later")) remote.

(** The answer to an invocation in which the function failed. *)
Definition failure (payload : bytes) : lambda.reply lambda.InvokeOutput :=
  (Some {| lambda.FunctionError := Some "Unhandled";
           lambda.LogResult := None;
           lambda.Payload := payload |}, None).

(** The same for a failure that the function handled. *)
Definition handled_failure (payload : bytes)
  : lambda.reply lambda.InvokeOutput :=
  (Some {| lambda.FunctionError := Some "Handled";
           lambda.LogResult := None;
           lambda.Payload := payload |}, None).

Definition start (t : table) : world table :=
  {| ext := t; calls := []; logged := [] |}.

(** A function as left by [Open]. *)
Definition hello : Function table :=
  {| config := {| Description := "hello"; Runtime := "nodejs"; Memory := 128;
                  Timeout := 3; Role := "arn:aws:iam::role/lambda" |};
     Name := "hello"; FunctionName := "app_hello"; Path := "functions/hello";
     Log := [("function", "hello")]; runtime := Some nodejs; env := None |}.

(** The same function on a compiled, shimmed runtime and with one
    environment variable set. *)
Definition gopher : Function table :=
  SetEnv
    {| config := config hello; Name := "gopher"; FunctionName := "app_gopher";
       Path := "functions/gopher"; Log := [("function", "gopher")];
       runtime := Some golang; env := None |}
    "STAGE" "prod".

(** [hello] as it is before [Open], with the given memory and timeout. *)
Definition fresh (memory timeout : Z) : Function table :=
  {| config := {| Description := "hello"; Runtime := "nodejs";
                  Memory := memory; Timeout := timeout;
                  Role := "arn:aws:iam::role/lambda" |};
     Name := "hello"; FunctionName := "app_hello"; Path := "functions/hello";
     Log := []; runtime := None; env := None |}.

(** The bytes of the one source file, which is also what the stand-in archive
    of [hello] comes to. *)
Definition abc : bytes := [Byte.x61; Byte.x62; Byte.x63].

(** More remotes: one whose alias calls fail, one whose alias read fails, one
    whose listing fails, one that cannot be reached for invocations, one
    that answers the query without a code hash. *)
Definition with_aliases (r : lambda.reply lambda.AliasConfiguration)
  (t : table) : table :=
  {| getFunction := getFunction t; createFunction := createFunction t;
     updateFunctionCode := updateFunctionCode t; getAlias := getAlias t;
     createAlias := r; updateAlias := r;
     listVersions := listVersions t; invoke := invoke t;
     function_json := function_json t; directory := directory t |}.

Definition with_listing
  (r : lambda.reply lambda.ListVersionsByFunctionOutput) (t : table) : table :=
  {| getFunction := getFunction t; createFunction := createFunction t;
     updateFunctionCode := updateFunctionCode t; getAlias := getAlias t;
     createAlias := createAlias t; updateAlias := updateAlias t;
     listVersions := r; invoke := invoke t;
     function_json := function_json t; directory := directory t |}.

Definition with_function_json (file : bytes + error) (t : table) : table :=
  {| getFunction := getFunction t; createFunction := createFunction t;
     updateFunctionCode := updateFunctionCode t; getAlias := getAlias t;
     createAlias := createAlias t; updateAlias := updateAlias t;
     listVersions := listVersions t; invoke := invoke t;
     function_json := file; directory := directory t |}.

Definition throttled : error := awserr_Error "TooManyRequestsException" "slow down".

Definition aliasless : table := with_aliases (None, Some throttled) remote.
Definition unreadable : table := with_getAlias (None, Some throttled) remote.
Definition unlisted : table := with_listing (None, Some throttled) remote.
Definition unreachable : table := with_invoke (None, Some throttled) remote.

Definition hashless : table :=
  with_getFunction
    (Some {| lambda.Configuration :=
               Some {| lambda.CodeSha256 := None;
                       lambda.Version := Some "$LATEST" |} |}, None)
    remote.

(** A compiled runtime whose build fails. *)
Definition rust : runtime.Runtime table :=
  {| runtime.Name := "rust"; runtime.Handler := "index.handle";
     runtime.Shimmed := true;
     runtime.Compiled :=
       Some {| runtime.Build _ t := (Some (foreign "exit status 101"), t);
               runtime.Clean _ t := (None, t) |} |}.

Definition crab : Function table :=
  {| config := config hello; Name := "crab"; FunctionName := "app_crab";
     Path := "functions/crab"; Log := [("function", "crab")];
     runtime := Some rust; env := None |}.

(** A second set of packages, like the first except that the serializer
    refuses the empty string, the decoder refuses an empty function.json,
    runtime detection finds nodejs and maps are ranged over back to front.
    It is passed by hand where it is used. *)
Definition fussy : Packages table string :=
  {| map_range := reverse;
     json_Marshal s :=
       if String.eqb s "" then ([], Some (foreign "json: unsupported value"))
       else (String.list_byte_of_string s, None);
     json_Marshal_env := json_Marshal_env (Packages := packages);
     json_Unmarshal_keys := unmarshal_keys;
     json_Decode_Config file c :=
       if same_bytes file [] then (c, Some (foreign "EOF")) else (c, None);
     base64_EncodeToString := String.string_of_list_byte;
     base64_Decode s := (String.list_byte_of_string s, None);
     humanize_Bytes _ := "some bytes";
     filepath_Join dir file := dir +:+ "/" +:+ file;
     os_Open _ t := function_json t;
     utils_Sha256 := String.string_of_list_byte;
     runtime_ByName := runtime_ByName (Packages := packages);
     runtime_Detect _ _ := ("nodejs", None);
     shim_Asset := shim_Asset (Packages := packages);
     archive_AddDir _ t := (directory t, None);
     archive_Close zip _ := (concat (archive.contents <$> zip), None) |}.

(** [hello] before [Open], with no runtime configured. *)
Definition unconfigured : Function table :=
  {| config := {| Description := "hello"; Runtime := ""; Memory := 128;
                  Timeout := 3; Role := "arn:aws:iam::role/lambda" |};
     Name := "hello"; FunctionName := "app_hello"; Path := "functions/hello";
     Log := []; runtime := None; env := None |}.

(** [hello] before [Open], configured with a runtime nobody knows. *)
Definition exotic : Function table :=
  {| config := {| Description := "hello"; Runtime := "cobol"; Memory := 128;
                  Timeout := 3; Role := "arn:aws:iam::role/lambda" |};
     Name := "hello"; FunctionName := "app_hello"; Path := "functions/hello";
     Log := []; runtime := None; env := None |}.

(** A remote that answers an invocation without a log tail, as for a dry
    run, and one whose alias comes back without a version. *)
Definition dry : table :=
  with_invoke (Some {| lambda.FunctionError := None; lambda.LogResult := None;
                       lambda.Payload := [] |}, None) remote.

Definition versionless : table :=
  with_getAlias (Some {| lambda.FunctionVersion := None |}, None) remote.

End stub.

(** * Properties *)

Section properties.

Context {W any : Type} `{!lambda.LambdaAPI W} `{!Packages W any}.
Implicit Types (f : Function W) (w : world W) (zip : bytes).

(** ** Running the monad *)

Ltac unfold_monad :=
  unfold Log_Info, Log_Debug, emit, roundtrip, local_op, local_read, deref,
    slice_from, index, panic, mbind, M_bind, mret, M_ret.

Lemma issued_app {A} (m : M W A) w cs :
  calls (m w).2 = calls w ++ cs → issued m w = cs.
Proof. unfold issued. intros ->. apply drop_app_length. Qed.

Lemma quiet_ret {A} (a : A) : quiet (mret a : M W A).
Proof. done. Qed.

Lemma quiet_panic {A} r : quiet (panic r : M W A).
Proof. done. Qed.

Lemma quiet_bind {A B} (m : M W A) (k : A → M W B) :
  quiet m → (∀ a, quiet (k a)) → quiet (m ≫= k).
Proof.
  intros Hm Hk w. unfold mbind, M_bind.
  specialize (Hm w). destruct (m w) as [[a|r] w1]; simpl in *.
  - by rewrite Hk.
  - done.
Qed.

Lemma quiet_emit l f msg : quiet (emit l f msg).
Proof. done. Qed.

Lemma quiet_local_op {T} (op : W → T * W) : quiet (local_op op).
Proof. intros w. unfold local_op. by destruct (op (ext w)). Qed.

Lemma quiet_local_read {T} (op : W → T) : quiet (local_read op).
Proof. done. Qed.

Lemma quiet_deref {A} (p : option A) : quiet (deref p : M W A).
Proof. by destruct p. Qed.

Create HintDb quiet.
#[local] Hint Resolve quiet_ret quiet_panic quiet_emit quiet_local_op
  quiet_local_read quiet_deref : quiet.

Ltac quiet_steps :=
  repeat first
    [ progress intros
    | apply quiet_bind
    | solve [unfold Log_Info, Log_Debug; eauto with quiet]
    | case_match ].

Lemma Zip_quiet f : quiet (Zip f).
Proof. unfold Zip. quiet_steps. Qed.

Lemma ZipBytes_quiet f : quiet (ZipBytes f).
Proof. unfold ZipBytes. pose proof (Zip_quiet f). quiet_steps. Qed.

(** [Zip] asks the runtime whether it is shimmed before it adds the source
    directory, so it cannot succeed on a function that was never opened. *)
Lemma Zip_Done_runtime f w rd w' :
  Zip f w = (Done (rd, None), w') → is_Some (runtime f).
Proof.
  destruct (runtime f) eqn:Hr; [eauto |].
  unfold Zip. rewrite Hr. unfold_monad. simpl.
  repeat (case_match; simplify_eq/=; try done).
Qed.

Lemma ZipBytes_Done_runtime f w zip w' :
  ZipBytes f w = (Done (zip, None), w') → is_Some (runtime f).
Proof.
  unfold ZipBytes. unfold_monad. cbn.
  destruct (Zip f _) as [[[rd [e|]]|r] w1] eqn:HZ; cbn; try done.
  intros _. by eapply Zip_Done_runtime.
Qed.

(** ** Update and Create *)

Lemma Update_run f zip w updated err x :
  lambda.UpdateFunctionCode (UpdateFunctionCodeInput f zip) (ext w)
    = ((updated, err), x) →
  let code := lambda.CallUpdateFunctionCode (UpdateFunctionCodeInput f zip) in
  match err, updated with
  | Some e, _ =>
    result (Update f zip) w = Done (Some e) ∧ issued (Update f zip) w = [code]
  | None, Some u =>
    let a := UpdateAliasInput f (lambda.Version u) in
    result (Update f zip) w = Done (lambda.UpdateAlias a x).1.2 ∧
    issued (Update f zip) w = [code; lambda.CallUpdateAlias a]
  | None, None =>
    (∃ r, result (Update f zip) w = Panic r) ∧ issued (Update f zip) w = [code]
  end.
Proof.
  intros Hcode code.
  destruct err as [e|]; [|destruct updated as [u|]]; cbn zeta.
  all: split; [unfold result | apply issued_app].
  all: unfold Update; unfold_monad; cbn; rewrite Hcode; cbn; eauto.
  all: destruct (lambda.UpdateAlias _ x) as [[? ?] ?]; cbn; try done.
  by rewrite <- app_assoc.
Qed.

Lemma Create_run f zip w r created err x :
  runtime f = Some r →
  lambda.CreateFunction (CreateFunctionInput f r zip) (ext w)
    = ((created, err), x) →
  let fn := lambda.CallCreateFunction (CreateFunctionInput f r zip) in
  match err, created with
  | Some e, _ =>
    result (Create f zip) w = Done (Some e) ∧ issued (Create f zip) w = [fn]
  | None, Some c =>
    let a := CreateAliasInput f (lambda.Version c) in
    result (Create f zip) w = Done (lambda.CreateAlias a x).1.2 ∧
    issued (Create f zip) w = [fn; lambda.CallCreateAlias a]
  | None, None =>
    (∃ r, result (Create f zip) w = Panic r) ∧ issued (Create f zip) w = [fn]
  end.
Proof.
  intros Hr Hfn fn.
  destruct err as [e|]; [|destruct created as [c|]]; cbn zeta.
  all: split; [unfold result | apply issued_app].
  all: unfold Create; rewrite Hr; unfold_monad; cbn; rewrite Hfn; cbn; eauto.
  all: destruct (lambda.CreateAlias _ x) as [[? ?] ?]; cbn; try done.
  by rewrite <- app_assoc.
Qed.

(** Whatever the service answers, one run of [Update] sends exactly one
    [UpdateFunctionCode] and never creates anything. *)
Lemma Update_methods f zip w :
  times "UpdateFunctionCode" (issued (Update f zip) w) = 1 ∧
  times "CreateFunction" (issued (Update f zip) w) = 0 ∧
  times "CreateAlias" (issued (Update f zip) w) = 0.
Proof.
  destruct (lambda.UpdateFunctionCode (UpdateFunctionCodeInput f zip) (ext w))
    as [[updated err] x] eqn:Hcode.
  pose proof (Update_run f zip w _ _ _ Hcode) as Hrun.
  destruct err; [|destruct updated]; cbn zeta in Hrun;
    destruct Hrun as [_ ->]; done.
Qed.

Lemma Create_methods f zip w r :
  runtime f = Some r →
  times "CreateFunction" (issued (Create f zip) w) = 1 ∧
  times "UpdateFunctionCode" (issued (Create f zip) w) = 0 ∧
  times "UpdateAlias" (issued (Create f zip) w) = 0.
Proof.
  intros Hr.
  destruct (lambda.CreateFunction (CreateFunctionInput f r zip) (ext w))
    as [[created err] x] eqn:Hfn.
  pose proof (Create_run f zip w r _ _ _ Hr Hfn) as Hrun.
  destruct err; [|destruct created]; cbn zeta in Hrun;
    destruct Hrun as [_ ->]; done.
Qed.

(** C6.  [Update] and [Create] each end with exactly one alias write, which
    points "current" at the version returned by the preceding
    update-code (respectively create-function) call: the calls issued are
    that call followed by the alias write and nothing else.  When the
    preceding call returns an error, that error is returned and the call is
    the only one issued, so no alias write is attempted. *)
Theorem Create_Update_end_with_one_alias_write f zip w :
  (∀ u x,
     lambda.UpdateFunctionCode (UpdateFunctionCodeInput f zip) (ext w)
       = ((Some u, None), x) →
     issued (Update f zip) w =
       [lambda.CallUpdateFunctionCode (UpdateFunctionCodeInput f zip);
        lambda.CallUpdateAlias (UpdateAliasInput f (lambda.Version u))] ∧
     alias_writes (issued (Update f zip) w) = [(CurrentAlias, lambda.Version u)])
  ∧ (∀ u e x,
     lambda.UpdateFunctionCode (UpdateFunctionCodeInput f zip) (ext w)
       = ((u, Some e), x) →
     result (Update f zip) w = Done (Some e) ∧
     alias_writes (issued (Update f zip) w) = [])
  ∧ (∀ r c x,
     runtime f = Some r →
     lambda.CreateFunction (CreateFunctionInput f r zip) (ext w)
       = ((Some c, None), x) →
     issued (Create f zip) w =
       [lambda.CallCreateFunction (CreateFunctionInput f r zip);
        lambda.CallCreateAlias (CreateAliasInput f (lambda.Version c))] ∧
     alias_writes (issued (Create f zip) w) = [(CurrentAlias, lambda.Version c)])
  ∧ (∀ r c e x,
     runtime f = Some r →
     lambda.CreateFunction (CreateFunctionInput f r zip) (ext w)
       = ((c, Some e), x) →
     result (Create f zip) w = Done (Some e) ∧
     alias_writes (issued (Create f zip) w) = []).
Proof.
  split; [|split; [|split]].
  - intros u x Hcode.
    by destruct (Update_run f zip w _ _ _ Hcode) as [_ ->].
  - intros u e x Hcode.
    by destruct (Update_run f zip w _ _ _ Hcode) as [-> ->].
  - intros r c x Hr Hfn.
    by destruct (Create_run f zip w _ _ _ _ Hr Hfn) as [_ ->].
  - intros r c e x Hr Hfn.
    by destruct (Create_run f zip w _ _ _ _ Hr Hfn) as [-> ->].
Qed.

(** ** Rollback *)

(** What [Rollback] does once the alias and the version listing are in:
    [versions] is the listing without its first element. *)
Lemma Rollback_run f w alias current x list x' :
  lambda.GetAlias (GetAliasInput f) (ext w) = ((Some alias, None), x) →
  lambda.FunctionVersion alias = Some current →
  lambda.ListVersionsByFunction (ListVersionsByFunctionInput f) x
    = ((Some list, None), x') →
  let reads := [lambda.CallGetAlias (GetAliasInput f);
                lambda.CallListVersionsByFunction
                  (ListVersionsByFunctionInput f)] in
  match lambda.Versions list with
  | [] =>
    result (Rollback f) w = Panic "slice bounds out of range" ∧
    issued (Rollback f) w = reads
  | _ :: versions =>
    if decide (length versions < 2) then
      result (Rollback f) w =
        Done (Some (errorString "Can't rollback. Only one version deployed.")) ∧
      issued (Rollback f) w = reads
    else
      ∀ p l prev latest,
        versions !! (length versions - 2) = Some (Some p) →
        versions !! (length versions - 1) = Some (Some l) →
        lambda.Version p = Some prev →
        lambda.Version l = Some latest →
        let rollback := if String.eqb current latest then prev else latest in
        let a := UpdateAliasInput f (Some rollback) in
        result (Rollback f) w = Done (lambda.UpdateAlias a x').1.2 ∧
        issued (Rollback f) w = reads ++ [lambda.CallUpdateAlias a]
  end.
Proof.
  intros Halias Hcur Hlist reads.
  destruct (lambda.Versions list) as [|first versions] eqn:Hvs.
  - split; [unfold result | apply issued_app].
    all: unfold Rollback; unfold_monad; cbn.
    all: rewrite Halias; cbn; rewrite Hcur; cbn; rewrite Hlist; cbn.
    all: rewrite Hvs; cbn; by rewrite <- ?app_assoc.
  - case_decide as Hlen.
    + split; [unfold result | apply issued_app].
      all: unfold Rollback; unfold_monad; cbn.
      all: rewrite Halias; cbn; rewrite Hcur; cbn; rewrite Hlist; cbn.
      all: rewrite Hvs; cbn; rewrite drop_0.
      all: rewrite (decide_True (P:=1 ≤ S (length versions))) by lia; cbn.
      all: rewrite (decide_True (P:=length versions < 2)) by done.
      all: cbn; by rewrite <- ?app_assoc.
    + intros p l prev latest Hp Hl Hprev Hlatest. cbn zeta.
      split; [unfold result | apply issued_app].
      all: unfold Rollback; unfold_monad; cbn.
      all: rewrite Halias; cbn; rewrite Hcur; cbn; rewrite Hlist; cbn.
      all: rewrite Hvs; cbn; rewrite drop_0.
      all: rewrite (decide_True (P:=1 ≤ S (length versions))) by lia; cbn.
      all: rewrite (decide_False (P:=length versions < 2)) by done.
      all: cbn; rewrite Hl; cbn; rewrite Hlatest; cbn.
      all: rewrite Hp; cbn; rewrite Hprev; cbn.
      all: destruct (lambda.UpdateAlias _ x') as [[? ?] ?]; cbn.
      all: by rewrite <- ?app_assoc.
Qed.

(** C2.  With the alias read and the listing's first element dropped:
    fewer than two remaining versions give the precondition error and no
    alias write; otherwise, with [latest] the last and [prev] the
    second-to-last remaining version, alias "current" is written exactly
    once, to [prev] when the alias is on [latest] and to [latest] for every
    other alias value. *)
Theorem Rollback_target f w alias current x list x' first versions :
  lambda.GetAlias (GetAliasInput f) (ext w) = ((Some alias, None), x) →
  lambda.FunctionVersion alias = Some current →
  lambda.ListVersionsByFunction (ListVersionsByFunctionInput f) x
    = ((Some list, None), x') →
  lambda.Versions list = first :: versions →
  (length versions < 2 →
     result (Rollback f) w =
       Done (Some (errorString "Can't rollback. Only one version deployed.")) ∧
     alias_writes (issued (Rollback f) w) = [])
  ∧ (∀ older p l prev latest,
     versions = older ++ [Some p; Some l] →
     lambda.Version p = Some prev →
     lambda.Version l = Some latest →
     ∃ target,
       alias_writes (issued (Rollback f) w) = [(CurrentAlias, Some target)] ∧
       (current = latest → target = prev) ∧
       (current ≠ latest → target = latest)).
Proof.
  intros Halias Hcur Hlist Hvs.
  pose proof (Rollback_run f w _ _ _ _ _ Halias Hcur Hlist) as Hrun.
  cbn zeta in Hrun. rewrite Hvs in Hrun. split.
  - intros Hlen. rewrite decide_True in Hrun by done.
    by destruct Hrun as [-> ->].
  - intros older p l prev latest -> Hprev Hlatest.
    rewrite decide_False in Hrun by (rewrite length_app; simpl; lia).
    destruct (Hrun p l prev latest) as [_ ->]; try done.
    + rewrite lookup_app_r; rewrite length_app; simpl; [|lia].
      by replace (_ - _ - _) with 0 by lia.
    + rewrite lookup_app_r; rewrite length_app; simpl; [|lia].
      by replace (_ - _ - _) with 1 by lia.
    + exists (if String.eqb current latest then prev else latest).
      split; [done|]. split; intros Hc.
      * by rewrite (proj2 (String.eqb_eq _ _) Hc).
      * by rewrite (proj2 (String.eqb_neq _ _) Hc).
Qed.

(** C9.  [Rollback] takes the listing from its second element on before it
    looks at the length, so a listing that comes back empty sends it into a
    slice that is out of range: the run panics after its two reads instead
    of returning the precondition error, and writes no alias. *)
Theorem Rollback_empty_listing_panics f w alias current x list x' :
  lambda.GetAlias (GetAliasInput f) (ext w) = ((Some alias, None), x) →
  lambda.FunctionVersion alias = Some current →
  lambda.ListVersionsByFunction (ListVersionsByFunctionInput f) x
    = ((Some list, None), x') →
  lambda.Versions list = [] →
  result (Rollback f) w = Panic "slice bounds out of range" ∧
  (∀ err, result (Rollback f) w ≠ Done err) ∧
  alias_writes (issued (Rollback f) w) = [].
Proof.
  intros Halias Hcur Hlist Hvs.
  pose proof (Rollback_run f w _ _ _ _ _ Halias Hcur Hlist) as Hrun.
  cbn zeta in Hrun. rewrite Hvs in Hrun. destruct Hrun as [Hres Hcalls].
  rewrite Hres, Hcalls. done.
Qed.

(** ** RollbackVersion *)

(** C3.  Asked for the version the alias is on, [RollbackVersion] returns
    the precondition error after its single read and writes nothing.  Asked
    for any other version string it issues the read and then one
    [UpdateAlias] of "current" to that string; the version listing is
    never consulted. *)
Theorem RollbackVersion_guard f version w alias current x :
  lambda.GetAlias (GetAliasInput f) (ext w) = ((Some alias, None), x) →
  lambda.FunctionVersion alias = Some current →
  (version = current →
     result (RollbackVersion f version) w =
       Done (Some (errorString "Specified version currently deployed.")) ∧
     issued (RollbackVersion f version) w
       = [lambda.CallGetAlias (GetAliasInput f)] ∧
     alias_writes (issued (RollbackVersion f version) w) = [])
  ∧ (version ≠ current →
     let a := UpdateAliasInput f (Some version) in
     result (RollbackVersion f version) w = Done (lambda.UpdateAlias a x).1.2 ∧
     issued (RollbackVersion f version) w
       = [lambda.CallGetAlias (GetAliasInput f); lambda.CallUpdateAlias a] ∧
     alias_writes (issued (RollbackVersion f version) w)
       = [(CurrentAlias, Some version)]).
Proof.
  intros Halias Hcur.
  assert (Hsame : version = current →
    result (RollbackVersion f version) w =
      Done (Some (errorString "Specified version currently deployed.")) ∧
    issued (RollbackVersion f version) w
      = [lambda.CallGetAlias (GetAliasInput f)]).
  { intros ->. split; [unfold result | apply issued_app].
    all: unfold RollbackVersion; unfold_monad; cbn.
    all: rewrite Halias; cbn; rewrite Hcur; cbn.
    all: by rewrite String.eqb_refl. }
  assert (Hother : version ≠ current →
    let a := UpdateAliasInput f (Some version) in
    result (RollbackVersion f version) w = Done (lambda.UpdateAlias a x).1.2 ∧
    issued (RollbackVersion f version) w
      = [lambda.CallGetAlias (GetAliasInput f); lambda.CallUpdateAlias a]).
  { intros Hne. cbn zeta. apply String.eqb_neq in Hne.
    split; [unfold result | apply issued_app].
    all: unfold RollbackVersion; unfold_monad; cbn.
    all: rewrite Halias; cbn; rewrite Hcur; cbn; rewrite Hne; cbn.
    all: destruct (lambda.UpdateAlias _ x) as [[? ?] ?]; cbn.
    all: by rewrite <- ?app_assoc. }
  split.
  - intros Heq. destruct (Hsame Heq) as [-> ->]. done.
  - intros Hne a. destruct (Hother Hne) as [-> ->]. done.
Qed.

(** ** DeployCode *)

Lemma appends_intro {A} (m : M W A) :
  (∀ w, ∃ cs, calls (m w).2 = calls w ++ cs) → appends m.
Proof.
  intros Hm w. destruct (Hm w) as [cs Hcs].
  by rewrite (issued_app m w cs Hcs).
Qed.

Lemma Update_appends f zip : appends (Update f zip).
Proof.
  apply appends_intro. intros w. unfold Update. unfold_monad. cbn.
  repeat (case_match; simplify_eq/=); rewrite <- ?app_assoc; eauto.
Qed.

Lemma Create_appends f zip : appends (Create f zip).
Proof.
  apply appends_intro. intros w. unfold Create. unfold_monad. cbn.
  repeat (case_match; simplify_eq/=); rewrite <- ?app_assoc; eauto.
  exists []. by rewrite app_nil_r.
Qed.

Lemma Info_run f w info err w' :
  Info f w = (Done (info, err), w') →
  calls w' = calls w ++ [lambda.CallGetFunction (GetFunctionInput f)].
Proof.
  unfold Info. unfold_monad. cbn.
  destruct (lambda.GetFunction _ _) as [? ?]. by intros [= _ <-].
Qed.

Lemma is_ResourceNotFound_spec err :
  is_ResourceNotFound err = true ↔
  ∃ m, err = Some (awserr_Error "ResourceNotFoundException" m).
Proof.
  split.
  - destruct err as [[code m| | |]|]; simpl; try done.
    intros ->%String.eqb_eq. eauto.
  - by intros [m ->].
Qed.

#[local] Arguments ZipBytes : simpl never.
#[local] Arguments Info : simpl never.
#[local] Arguments Create : simpl never.
#[local] Arguments Update : simpl never.

(** [DeployCode] up to the point where the answer of the query is in. *)
Lemma DeployCode_after_query f w zip w1 info err w2 :
  ZipBytes f (Log_Info f "deploying" w).2 = (Done (zip, None), w1) →
  Info f w1 = (Done (info, err), w2) →
  calls w2 = calls w ++ [lambda.CallGetFunction (GetFunctionInput f)] ∧
  DeployCode f w =
    if is_ResourceNotFound err then Create f zip w2
    else
      match err with
      | Some e => (Done (Some e), w2)
      | None =>
        (i ← deref info;
         c ← deref (lambda.Configuration i);
         remoteHash ← deref (lambda.CodeSha256 c);
         if String.eqb (utils_Sha256 zip) remoteHash then
           Log_Info f "unchanged";; mret None
         else Update f zip) w2
      end.
Proof.
  intros Hzip Hinfo. split.
  - rewrite (Info_run _ _ _ _ _ Hinfo).
    pose proof (ZipBytes_quiet f (Log_Info f "deploying" w).2) as Hq.
    rewrite Hzip in Hq. simpl in Hq. by rewrite Hq.
  - unfold DeployCode. unfold mbind, M_bind at 1.
    destruct (Log_Info f "deploying" w) as [[[]|?] w0] eqn:Hlog; [|done].
    simpl in Hzip. unfold mbind, M_bind at 1. rewrite Hzip.
    unfold mbind, M_bind at 1. rewrite Hinfo.
    destruct (is_ResourceNotFound err); [done|]. by destruct err.
Qed.

(** C1.  Once the artifact is built and the query has answered:
    a not-found answer makes the rest of the run one run of [Create], with
    exactly one [CreateFunction] and no [UpdateFunctionCode]; any other
    error is returned as it is and the query is the only call issued; with
    equal hashes the run logs "unchanged", returns success and the query
    is again the only call issued; with different hashes the rest of the
    run is one run of [Update], with exactly one [UpdateFunctionCode] and
    no [CreateFunction]. *)
Theorem DeployCode_decision f w zip w1 info err w2 :
  ZipBytes f (Log_Info f "deploying" w).2 = (Done (zip, None), w1) →
  Info f w1 = (Done (info, err), w2) →
  let query := lambda.CallGetFunction (GetFunctionInput f) in
  (∀ m, err = Some (awserr_Error "ResourceNotFoundException" m) →
     DeployCode f w = Create f zip w2 ∧
     times "CreateFunction" (issued (DeployCode f) w) = 1 ∧
     times "UpdateFunctionCode" (issued (DeployCode f) w) = 0)
  ∧ (∀ e, err = Some e →
     (∀ m, e ≠ awserr_Error "ResourceNotFoundException" m) →
     DeployCode f w = (Done (Some e), w2) ∧
     issued (DeployCode f) w = [query])
  ∧ (∀ i c remoteHash,
     err = None → info = Some i → lambda.Configuration i = Some c →
     lambda.CodeSha256 c = Some remoteHash →
     (utils_Sha256 zip = remoteHash →
        DeployCode f w = (Done None, (Log_Info f "unchanged" w2).2) ∧
        log.Msg <$> last (logged (DeployCode f w).2) = Some "unchanged" ∧
        issued (DeployCode f) w = [query] ∧
        List.filter mutating (issued (DeployCode f) w) = [])
     ∧ (utils_Sha256 zip ≠ remoteHash →
        DeployCode f w = Update f zip w2 ∧
        times "UpdateFunctionCode" (issued (DeployCode f) w) = 1 ∧
        times "CreateFunction" (issued (DeployCode f) w) = 0)).
Proof.
  intros Hzip Hinfo query.
  destruct (DeployCode_after_query f w zip w1 info err w2 Hzip Hinfo)
    as [Hcalls Hrun].
  destruct (ZipBytes_Done_runtime _ _ _ _ Hzip) as [r Hr].
  split; [|split].
  - intros m ->. simpl in Hrun. split; [done|].
    assert (issued (DeployCode f) w = query :: issued (Create f zip) w2) as ->.
    { apply issued_app. rewrite Hrun, Create_appends, Hcalls.
      by rewrite <- app_assoc. }
    destruct (Create_methods f zip w2 r Hr) as (Hc & Hu & _).
    unfold times in *. simpl. by rewrite Hc, Hu.
  - intros e -> Hne.
    assert (is_ResourceNotFound (Some e) = false) as Hnf.
    { destruct (is_ResourceNotFound (Some e)) eqn:Hnf; [|done].
      apply is_ResourceNotFound_spec in Hnf as [m [= ->]]. by destruct (Hne m). }
    rewrite Hnf in Hrun. split; [done|].
    apply issued_app. by rewrite Hrun.
  - intros i c remoteHash -> -> Hc Hh. simpl in Hrun.
    unfold mbind, M_bind, deref, mret, M_ret in Hrun.
    rewrite Hc, Hh in Hrun. split.
    + intros Heq. apply String.eqb_eq in Heq. rewrite Heq in Hrun.
      assert (issued (DeployCode f) w = [query]) as Hq.
      { apply issued_app. by rewrite Hrun. }
      rewrite Hq. split; [done|]. split; [|done].
      rewrite Hrun. simpl. by rewrite last_snoc.
    + intros Hne. apply String.eqb_neq in Hne. rewrite Hne in Hrun.
      split; [done|].
      assert (issued (DeployCode f) w = query :: issued (Update f zip) w2) as ->.
      { apply issued_app. rewrite Hrun, Update_appends, Hcalls.
        by rewrite <- app_assoc. }
      destruct (Update_methods f zip w2) as (Hu & Hcr & _).
      unfold times in *. simpl. by rewrite Hu, Hcr.
Qed.

(** ** Invoke *)

(** [Invoke] once both arguments are serialized and the service has
    answered without a transport error. *)
Lemma Invoke_after_reply f event context kind w eventBytes contextBytes res x :
  json_Marshal event = (eventBytes, None) →
  json_Marshal context = (contextBytes, None) →
  lambda.Invoke (InvokeInput f eventBytes contextBytes kind) (ext w)
    = ((Some res, None), x) →
  issued (Invoke f event context kind) w
    = [lambda.CallInvoke (InvokeInput f eventBytes contextBytes kind)] ∧
  result (Invoke f event context kind) w =
    match lambda.FunctionError res with
    | Some functionError =>
      match json_Unmarshal_keys (lambda.Payload res) with
      | inl k =>
        Done (None, None, Some (InvokeError_ptr
          {| Message := default "" (json.errorMessage k);
             Type_ := default "" (json.errorType k);
             Stack := default [] (json.stackTrace k);
             Handled := default (String.eqb functionError "Handled")
                                (json.Handled_key k) |}))
      | inr d => Done (None, None, Some (foreign d))
      end
    | None =>
      if String.eqb kind Event then
        Done (Some (bytes_Reader []), Some (bytes_Reader []), None)
      else
        match lambda.LogResult res with
        | Some logResult =>
          Done (Some (bytes_Reader (lambda.Payload res)),
                Some (base64_NewDecoder logResult), None)
        | None => Panic "invalid memory address or nil pointer dereference"
        end
    end.
Proof.
  intros Hevent Hcontext Hreply.
  split; [apply issued_app | unfold result].
  all: unfold Invoke; rewrite Hevent, Hcontext; unfold_monad; cbn.
  all: rewrite Hreply; cbn.
  all: destruct (lambda.FunctionError res) as [functionError|]; cbn.
  all: unfold json_Unmarshal.
  all: try destruct (json_Unmarshal_keys (lambda.Payload res)); cbn; try done.
  all: destruct (String.eqb kind Event); cbn; try done.
  all: by destruct (lambda.LogResult res).
Qed.

(** C4, as the code has it.  When the response carries a function-error
    marker and its payload decodes as a JSON object, [Invoke] returns no
    reply stream, no log stream and one [InvokeError]: message, type and
    stack are the values of the payload's keys (the zero value where a key
    is missing).  For a payload without a key of its own for the handled
    field, the handled flag is whether the marker reads "Handled". *)
Theorem Invoke_function_error f event context kind w eventBytes contextBytes
    res x functionError k :
  json_Marshal event = (eventBytes, None) →
  json_Marshal context = (contextBytes, None) →
  lambda.Invoke (InvokeInput f eventBytes contextBytes kind) (ext w)
    = ((Some res, None), x) →
  lambda.FunctionError res = Some functionError →
  json_Unmarshal_keys (lambda.Payload res) = inl k →
  ∃ e,
    result (Invoke f event context kind) w
      = Done (None, None, Some (InvokeError_ptr e)) ∧
    Message e = default "" (json.errorMessage k) ∧
    Type_ e = default "" (json.errorType k) ∧
    Stack e = default [] (json.stackTrace k) ∧
    (json.Handled_key k = None →
       Handled e = String.eqb functionError "Handled" ∧
       (Handled e = true ↔ functionError = "Handled")).
Proof.
  intros Hevent Hcontext Hreply Hmarker Hkeys.
  destruct (Invoke_after_reply _ _ _ _ _ _ _ _ _ Hevent Hcontext Hreply)
    as [_ Hres].
  rewrite Hmarker, Hkeys in Hres.
  eexists. split; [exact Hres|]. simpl.
  split; [done|]. split; [done|]. split; [done|].
  intros ->. simpl. split; [done|]. apply String.eqb_eq.
Qed.

(** C5.  An invocation of kind [Event] that the service answers without a
    transport error and without a function-error marker returns a reply
    stream and a log stream that both hold no bytes, and no error. *)
Theorem Invoke_Event_empty_streams f event context w eventBytes contextBytes
    res x :
  json_Marshal event = (eventBytes, None) →
  json_Marshal context = (contextBytes, None) →
  lambda.Invoke (InvokeInput f eventBytes contextBytes Event) (ext w)
    = ((Some res, None), x) →
  lambda.FunctionError res = None →
  result (Invoke f event context Event) w
    = Done (Some (bytes_Reader []), Some (bytes_Reader []), None) ∧
  ioutil_ReadAll (bytes_Reader []) = ([], None).
Proof.
  intros Hevent Hcontext Hreply Hmarker.
  destruct (Invoke_after_reply _ _ _ _ _ _ _ _ _ Hevent Hcontext Hreply)
    as [_ Hres].
  rewrite Hmarker in Hres. by rewrite Hres.
Qed.

(** C10.  When the response carries a function-error marker and its
    payload does not decode, [Invoke] returns the error of the json package:
    no reply stream, no log stream, and an error that is not an
    [InvokeError]. *)
Theorem Invoke_undecodable_function_error f event context kind w eventBytes
    contextBytes res x functionError d :
  json_Marshal event = (eventBytes, None) →
  json_Marshal context = (contextBytes, None) →
  lambda.Invoke (InvokeInput f eventBytes contextBytes kind) (ext w)
    = ((Some res, None), x) →
  lambda.FunctionError res = Some functionError →
  json_Unmarshal_keys (lambda.Payload res) = inr d →
  result (Invoke f event context kind) w = Done (None, None, Some (foreign d)) ∧
  ∀ e, result (Invoke f event context kind) w
         ≠ Done (None, None, Some (InvokeError_ptr e)).
Proof.
  intros Hevent Hcontext Hreply Hmarker Hkeys.
  destruct (Invoke_after_reply _ _ _ _ _ _ _ _ _ Hevent Hcontext Hreply)
    as [_ Hres].
  rewrite Hmarker, Hkeys in Hres. by rewrite Hres.
Qed.

(** ** Zip *)

Lemma entries_at_app name (zip1 zip2 : list archive.Entry) :
  entries_at name (zip1 ++ zip2) = entries_at name zip1 + entries_at name zip2.
Proof. unfold entries_at. by rewrite List.filter_app, length_app. Qed.

(** After [SetEnv] the environment is a map that holds the variable. *)
Lemma SetEnv_sets f name value :
  ∃ m, env (SetEnv f name value) = Some m ∧ m !! name = Some value.
Proof. eexists. split; [done|]. apply lookup_insert_eq. Qed.

(** C7.  When every step of [Zip] goes through, the stream returned is what
    closing the archive yields for these entries, in this order: the
    serialized environment at [".env.json"] if the environment is set and
    nothing if it is not; the two shim assets at ["index.js"] and
    ["byline.js"] if the runtime is shimmed and nothing if it is not; the
    files of the source directory.  So over and above what the source
    directory itself holds under these names, the archive has exactly one
    environment entry when the environment is set and none otherwise, and
    exactly one entry for each shim when the runtime is shimmed and none
    otherwise. *)
Theorem Zip_entries f w r x a b added :
  let dotenv :=
    match env f with
    | Some m => [{| archive.path := ".env.json";
                    archive.contents := (json_Marshal_env m).1 |}]
    | None => []
    end in
  let shims :=
    if runtime.Shimmed r then
      [{| archive.path := "index.js"; archive.contents := a |};
       {| archive.path := "byline.js"; archive.contents := b |}]
    else [] in
  let zip := dotenv ++ shims ++ added in
  runtime f = Some r →
  match runtime.Compiled r with
  | Some c => runtime.Build c (Path f) (ext w) = (None, x)
  | None => x = ext w
  end →
  (∀ m, env f = Some m → (json_Marshal_env m).2 = None) →
  (runtime.Shimmed r = true →
     shim_Asset "index.js" = Some a ∧ shim_Asset "byline.js" = Some b) →
  archive_AddDir (Path f) x = (added, None) →
  (archive_Close zip x).2 = None →
  result (Zip f) w = Done (Some (bytes_Reader (archive_Close zip x).1), None) ∧
  entries_at ".env.json" zip =
    (if env f is Some _ then 1 else 0) + entries_at ".env.json" added ∧
  entries_at "index.js" zip =
    (if runtime.Shimmed r then 1 else 0) + entries_at "index.js" added ∧
  entries_at "byline.js" zip =
    (if runtime.Shimmed r then 1 else 0) + entries_at "byline.js" added.
Proof.
  intros dotenv shims zip Hr Hbuild Henv Hshim Hdir Hclose.
  split; [|split; [|split]].
  - subst zip dotenv shims.
    destruct (archive_Close _ x) as [buf cerr] eqn:Hc in Hclose |- *.
    simpl in Hclose. subst cerr.
    unfold result, Zip. rewrite Hr.
    change (Some r ≫= runtime.Compiled) with (runtime.Compiled r).
    unfold_monad.
    destruct (runtime.Compiled r) as [c|]; [|subst x];
      (destruct (env f) as [m|] eqn:Hm;
       [ specialize (Henv m eq_refl);
         destruct (json_Marshal_env m) as [bs merr];
         simpl in Henv; subst merr |]);
      (destruct (runtime.Shimmed r);
       [ destruct Hshim as [Ha Hb]; [done|] | clear Hshim ]);
      cbn in *;
      rewrite ?Hbuild; cbn; rewrite ?Ha; cbn; rewrite ?Hb; cbn;
      rewrite Hdir; cbn; rewrite <- ?app_assoc; cbn; rewrite Hc; done.
  - subst zip dotenv shims. rewrite !entries_at_app.
    destruct (env f), (runtime.Shimmed r); done.
  - subst zip dotenv shims. rewrite !entries_at_app.
    destruct (env f), (runtime.Shimmed r); done.
  - subst zip dotenv shims. rewrite !entries_at_app.
    destruct (env f), (runtime.Shimmed r); done.
Qed.

(** ** Open *)

Lemma validator_Validate_None c :
  validator_Validate c = None ↔
  Runtime c ≠ "" ∧ Memory c ≠ 0%Z ∧ Timeout c ≠ 0%Z ∧ Role c ≠ "".
Proof.
  unfold validator_Validate, nonzero_violations.
  destruct (String.eqb_spec (Runtime c) ""), (Z.eqb_spec (Memory c) 0),
    (Z.eqb_spec (Timeout c) 0), (String.eqb_spec (Role c) ""); simpl;
    split; try done; intros (? & ? & ? & ?); done.
Qed.

(** C8, as the code has it.  [Open] always returns, leaving the world as it
    found it.  If the configuration it leaves behind (function.json decoded
    over the given one, an empty runtime replaced by the detected one) has
    memory equal to zero, timeout equal to zero, an empty role, an empty
    runtime, or a runtime that [runtime.ByName] does not resolve, then
    [Open] returns an error.  Conversely a successful [Open] leaves every
    one of the four fields non-zero and the function bound to the runtime
    that [runtime.ByName] resolved.  Negative memory and timeout are not
    rejected. *)
Theorem Open_rejects_zero_values f w :
  ∃ f' err,
    Open f w = (Done (f', err), w) ∧
    (Memory (config f') = 0%Z ∨ Timeout (config f') = 0%Z ∨
     Role (config f') = "" ∨ Runtime (config f') = "" ∨
     (runtime_ByName (Runtime (config f'))).2 ≠ None →
     err ≠ None) ∧
    (err = None →
     Memory (config f') ≠ 0%Z ∧ Timeout (config f') ≠ 0%Z ∧
     Role (config f') ≠ "" ∧ Runtime (config f') ≠ "" ∧
     runtime_ByName (Runtime (config f')) = (runtime f', None)).
Proof.
  set (good := λ (g : Function W) (err : option error),
    err = None →
    (Runtime (config g) ≠ "" ∧ Memory (config g) ≠ 0%Z ∧
     Timeout (config g) ≠ 0%Z ∧ Role (config g) ≠ "") ∧
    runtime_ByName (Runtime (config g)) = (runtime g, None)).
  assert (∀ g : Function W,
    ∃ f' err,
      (match validator_Validate (config g) with
       | Some e =>
         mret (g, Some (errorString
                 ("error opening function " +:+ Name g +:+ ": " +:+ Error e)))
       | None =>
         let '(r, err) := runtime_ByName (Runtime (config g)) in
         match err with
         | Some e => mret (g, Some e)
         | None =>
           mret ({| config := config g; Name := Name g;
                    FunctionName := FunctionName g; Path := Path g;
                    Log := Log g ++ [("function", Name g)];
                    runtime := r; env := env g |}, None)
         end
       end : M W _) w = (Done (f', err), w) ∧ good f' err)
    as Hcheck.
  { intros g. destruct (validator_Validate (config g)) as [e|] eqn:Hv.
    - eexists _, _. split; [done|]. done.
    - apply validator_Validate_None in Hv.
      destruct (runtime_ByName (Runtime (config g))) as [r [e|]] eqn:Hr.
      + eexists _, _. split; [done|]. done.
      + eexists _, _. split; [done|]. intros _. simpl. by rewrite Hr. }
  assert (∃ f' err, Open f w = (Done (f', err), w) ∧ good f' err)
    as (f' & err & Hrun & Hok).
  { unfold Open. unfold_monad. cbn.
    destruct (os_Open _ _) as [file|_];
      [destruct (json_Decode_Config file (config f)) as [c [e|]]|].
    - eexists _, _. split; [done|]. done.
    - destruct (String.eqb (Runtime (config (set_config f c))) "");
        [destruct (runtime_Detect _ _) as [name [e|]]|]; apply Hcheck.
    - destruct (String.eqb (Runtime (config f)) "");
        [destruct (runtime_Detect _ _) as [name [e|]]|]; apply Hcheck. }
  exists f', err. split; [done|]. split.
  - intros Hzero Herr. apply Hok in Herr as [(? & ? & ? & ?) Hr].
    destruct Hzero as [?|[?|[?|[?|Hn]]]]; try done.
    by rewrite Hr in Hn.
  - intros Herr. apply Hok in Herr as [(? & ? & ? & ?) Hr]. done.
Qed.

(** * Further properties *)

(** ** Which calls an operation can issue *)

Lemma confined_issued {A} P (m : M W A) w :
  confined P m → Forall P (issued m w).
Proof.
  intros Hm. destruct (Hm w) as (cs & Hcs & HP).
  by rewrite (issued_app m w cs Hcs).
Qed.

Lemma quiet_confined {A} P (m : M W A) : quiet m → confined P m.
Proof. intros Hm w. exists []. by rewrite app_nil_r, Hm. Qed.

Lemma confined_bind {A B} P (m : M W A) (k : A → M W B) :
  confined P m → (∀ a, confined P (k a)) → confined P (m ≫= k).
Proof.
  intros Hm Hk w. unfold mbind, M_bind.
  destruct (Hm w) as (cs & Hcs & HP).
  destruct (m w) as [[a|r] w1]; simpl in *.
  - destruct (Hk a w1) as (cs' & Hcs' & HP').
    exists (cs ++ cs'). rewrite Hcs', Hcs, app_assoc.
    split; [done|]. by apply Forall_app.
  - eauto.
Qed.

Lemma confined_roundtrip {T} (P : lambda.call → Prop) c
    (method : W → lambda.reply T * W) :
  P c → confined P (roundtrip c method).
Proof.
  intros Hc w. exists [c]. unfold roundtrip.
  destruct (method (ext w)). split; [done|]. by constructor.
Qed.

Lemma quiet_slice_from {A} n (s : list A) : quiet (slice_from n s : M W _).
Proof. intros w. unfold slice_from. by case_decide. Qed.

Lemma quiet_index {A} (s : list A) i : quiet (index s i : M W _).
Proof. intros w. unfold index. by destruct (s !! i). Qed.

#[local] Hint Resolve quiet_slice_from quiet_index : quiet.

Ltac confined_steps :=
  repeat first
    [ progress intros
    | apply confined_bind
    | solve [apply quiet_confined; unfold Log_Info, Log_Debug; eauto with quiet]
    | solve [apply confined_roundtrip; reflexivity]
    | case_match ].

Lemma Update_confined f zip :
  confined (λ c, deploy_call c = true) (Update f zip).
Proof. unfold Update. confined_steps. Qed.

Lemma Create_confined f zip :
  confined (λ c, deploy_call c = true) (Create f zip).
Proof. unfold Create. confined_steps. Qed.

Lemma DeployCode_confined f :
  confined (λ c, deploy_call c = true) (DeployCode f).
Proof.
  unfold DeployCode, Info.
  pose proof (ZipBytes_quiet f). pose proof (Update_confined f).
  pose proof (Create_confined f). confined_steps.
Qed.

Lemma times_0 name (P : lambda.call → Prop) cs :
  (∀ c, P c → method c ≠ name) → Forall P cs → times name cs = 0.
Proof.
  intros HP Hcs. unfold times. induction Hcs as [|c cs Hc _ IH]; [done|].
  simpl. by rewrite (proj2 (String.eqb_neq _ _) (HP c Hc)).
Qed.

Lemma deploy_call_method c :
  deploy_call c = true →
  method c ≠ "DeleteFunction" ∧ method c ≠ "UpdateFunctionConfiguration" ∧
  method c ≠ "Invoke".
Proof. by destruct c. Qed.

(** X1.  Whatever the disk and the service answer, the calls [DeployCode]
    issues are the query, the two publishing calls and alias writes that
    name the alias "current": it never deletes the function, never touches
    its configuration and never invokes it. *)
Theorem DeployCode_only_deploys f w :
  Forall (λ c, deploy_call c = true) (issued (DeployCode f) w) ∧
  times "DeleteFunction" (issued (DeployCode f) w) = 0 ∧
  times "UpdateFunctionConfiguration" (issued (DeployCode f) w) = 0 ∧
  times "Invoke" (issued (DeployCode f) w) = 0 ∧
  Forall (λ p, p.1 = CurrentAlias) (alias_writes (issued (DeployCode f) w)).
Proof.
  pose proof (confined_issued _ _ w (DeployCode_confined f)) as Hcs.
  split; [done|].
  repeat split; try (eapply times_0; [|exact Hcs]; intros c Hc;
                     by destruct (deploy_call_method c Hc) as (? & ? & ?)).
  induction Hcs as [|c cs Hc _ IH]; [constructor|].
  unfold alias_writes in *. simpl.
  destruct c; simpl in *; try done; constructor; try done;
    by apply String.eqb_eq.
Qed.

(** X2.  [Deploy] stops at the first failure: when [DeployCode] returns an
    error, [Deploy] returns that error from the same state and the
    configuration is not pushed. *)
Theorem Deploy_stops_at_first_failure f w e w' :
  DeployCode f w = (Done (Some e), w') →
  Deploy f w = (Done (Some e), w') ∧
  times "UpdateFunctionConfiguration" (issued (Deploy f) w) = 0.
Proof.
  intros Hcode.
  assert (Deploy f w = (Done (Some e), w')) as Hrun.
  { unfold Deploy, mbind, M_bind. by rewrite Hcode. }
  split; [done|].
  assert (issued (Deploy f) w = issued (DeployCode f) w) as ->.
  { unfold issued. by rewrite Hrun, Hcode. }
  eapply times_0; [|apply (confined_issued _ _ w (DeployCode_confined f))].
  intros c Hc. by destruct (deploy_call_method c Hc) as (? & ? & ?).
Qed.

(** ** Deploying *)

(** X3.  [Deploy] pushes the configuration even when the code is unchanged:
    with equal hashes the calls are the query followed by one
    [UpdateFunctionConfiguration] carrying the function's memory, timeout,
    description, role and the runtime's handler, and the result is that
    call's error. *)
Theorem Deploy_unchanged_code_pushes_config f w zip w1 i c w2 r :
  ZipBytes f (Log_Info f "deploying" w).2 = (Done (zip, None), w1) →
  Info f w1 = (Done (Some i, None), w2) →
  lambda.Configuration i = Some c →
  lambda.CodeSha256 c = Some (utils_Sha256 zip) →
  runtime f = Some r →
  let push := UpdateFunctionConfigurationInput f r in
  issued (Deploy f) w =
    [lambda.CallGetFunction (GetFunctionInput f);
     lambda.CallUpdateFunctionConfiguration push] ∧
  result (Deploy f) w =
    Done (lambda.UpdateFunctionConfiguration push (ext w2)).1.2.
Proof.
  intros Hzip Hinfo Hc Hh Hr push.
  destruct (DeployCode_after_query f w zip w1 _ _ w2 Hzip Hinfo)
    as [Hcalls Hrun].
  simpl in Hrun. unfold mbind, M_bind, deref, mret, M_ret in Hrun.
  rewrite Hc, Hh, String.eqb_refl in Hrun.
  split; [apply issued_app | unfold result].
  all: unfold Deploy, mbind, M_bind; rewrite Hrun.
  all: unfold DeployConfig; rewrite Hr; unfold_monad; cbn.
  all: fold push; destruct (lambda.UpdateFunctionConfiguration push _)
         as [[? ?] ?]; cbn.
  - by rewrite Hcalls, <- app_assoc.
  - done.
Qed.

(** X4.  A failing build aborts the deployment before any remote call:
    [DeployCode] returns the build error wrapped as "compiling: ..." and
    issues nothing. *)
Theorem DeployCode_build_failure f w r c e x :
  runtime f = Some r →
  runtime.Compiled r = Some c →
  runtime.Build c (Path f) (ext w) = (Some e, x) →
  result (DeployCode f) w
    = Done (Some (errorString ("compiling: " +:+ Error e))) ∧
  issued (DeployCode f) w = [].
Proof.
  intros Hr Hc Hbuild.
  split; [unfold result | apply issued_app].
  all: unfold DeployCode, ZipBytes, Zip; rewrite Hr.
  all: change (Some r ≫= runtime.Compiled) with (runtime.Compiled r).
  all: rewrite Hc; unfold_monad; cbn; rewrite Hbuild; cbn.
  - done.
  - by rewrite app_nil_r.
Qed.

(** X5.  When the query succeeds but its answer carries no configuration or
    no code hash, [DeployCode] panics on the nil pointer; the query is the
    only call issued, so nothing is changed on the remote side. *)
Theorem DeployCode_missing_hash_panics f w zip w1 info w2 :
  ZipBytes f (Log_Info f "deploying" w).2 = (Done (zip, None), w1) →
  Info f w1 = (Done (info, None), w2) →
  (info ≫= lambda.Configuration) ≫= lambda.CodeSha256 = None →
  result (DeployCode f) w
    = Panic "invalid memory address or nil pointer dereference" ∧
  issued (DeployCode f) w = [lambda.CallGetFunction (GetFunctionInput f)].
Proof.
  intros Hzip Hinfo Hnil.
  destruct (DeployCode_after_query f w zip w1 _ _ w2 Hzip Hinfo)
    as [Hcalls Hrun].
  simpl in Hrun. unfold mbind, M_bind, deref, mret, M_ret, panic in Hrun.
  split; [unfold result | apply issued_app]; rewrite Hrun.
  all: destruct info as [i|]; [|done]; simpl in *.
  all: destruct (lambda.Configuration i) as [c|]; [|done]; simpl in *.
  all: by rewrite Hnil.
Qed.

(** X6.  On a function that was never opened, [Create] and [DeployConfig]
    panic on the nil runtime before they reach the service. *)
Theorem unopened_function_panics_before_any_call f zip w :
  runtime f = None →
  result (Create f zip) w
    = Panic "invalid memory address or nil pointer dereference" ∧
  issued (Create f zip) w = [] ∧
  result (DeployConfig f) w
    = Panic "invalid memory address or nil pointer dereference" ∧
  issued (DeployConfig f) w = [].
Proof.
  intros Hr. repeat split.
  all: try apply issued_app; unfold result, Create, DeployConfig.
  all: rewrite Hr; unfold_monad; cbn; by rewrite ?app_nil_r.
Qed.

(** X7.  No compensation after a partial failure: when the code is
    published and the alias write that follows fails, [Update] and [Create]
    return the alias error, and the two calls are all they issue. *)
Theorem alias_failure_is_not_compensated f zip w :
  (∀ u x a e x',
     lambda.UpdateFunctionCode (UpdateFunctionCodeInput f zip) (ext w)
       = ((Some u, None), x) →
     lambda.UpdateAlias (UpdateAliasInput f (lambda.Version u)) x
       = ((a, Some e), x') →
     result (Update f zip) w = Done (Some e) ∧
     issued (Update f zip) w =
       [lambda.CallUpdateFunctionCode (UpdateFunctionCodeInput f zip);
        lambda.CallUpdateAlias (UpdateAliasInput f (lambda.Version u))])
  ∧ (∀ r c x a e x',
     runtime f = Some r →
     lambda.CreateFunction (CreateFunctionInput f r zip) (ext w)
       = ((Some c, None), x) →
     lambda.CreateAlias (CreateAliasInput f (lambda.Version c)) x
       = ((a, Some e), x') →
     result (Create f zip) w = Done (Some e) ∧
     issued (Create f zip) w =
       [lambda.CallCreateFunction (CreateFunctionInput f r zip);
        lambda.CallCreateAlias (CreateAliasInput f (lambda.Version c))]).
Proof.
  split.
  - intros u x a e x' Hcode Halias.
    destruct (Update_run f zip w _ _ _ Hcode) as [Hres Hcalls].
    cbn zeta in Hres. by rewrite Halias in Hres.
  - intros r c x a e x' Hr Hfn Halias.
    destruct (Create_run f zip w r _ _ _ Hr Hfn) as [Hres Hcalls].
    cbn zeta in Hres. by rewrite Halias in Hres.
Qed.

(** ** Invoking *)

(** X8.  When the event or the context cannot be serialized, [Invoke]
    returns the serializer's error without streams and leaves the world
    untouched: no call is issued and nothing is logged. *)
Theorem Invoke_serialization_failure f event context kind w :
  (∀ b e, json_Marshal event = (b, Some e) →
     Invoke f event context kind w = (Done (None, None, Some e), w))
  ∧ (∀ eventBytes b e,
     json_Marshal event = (eventBytes, None) →
     json_Marshal context = (b, Some e) →
     Invoke f event context kind w = (Done (None, None, Some e), w)).
Proof.
  split.
  - intros b e Hevent. unfold Invoke. by rewrite Hevent.
  - intros eventBytes b e Hevent Hcontext. unfold Invoke.
    by rewrite Hevent, Hcontext.
Qed.

(** X9.  [Invoke] issues exactly one call when both arguments serialize and
    none otherwise, whatever the service answers; the call goes to the
    alias "current", asks for the log tail, and carries the serialized
    event as payload and the base64 of the serialized context. *)
Theorem Invoke_issues_one_call f event context kind w :
  issued (Invoke f event context kind) w =
    match json_Marshal event, json_Marshal context with
    | (eventBytes, None), (contextBytes, None) =>
      [lambda.CallInvoke (InvokeInput f eventBytes contextBytes kind)]
    | _, _ => []
    end ∧
  Forall (λ c, ∃ i, c = lambda.CallInvoke i ∧
                    lambda.InvokeInput.Qualifier i = CurrentAlias ∧
                    lambda.InvokeInput.LogType i = "Tail" ∧
                    lambda.InvokeInput.InvocationType i = kind)
         (issued (Invoke f event context kind) w).
Proof.
  assert (issued (Invoke f event context kind) w =
    match json_Marshal event, json_Marshal context with
    | (eventBytes, None), (contextBytes, None) =>
      [lambda.CallInvoke (InvokeInput f eventBytes contextBytes kind)]
    | _, _ => []
    end) as Hcalls.
  { apply issued_app. unfold Invoke.
    destruct (json_Marshal event) as [eventBytes [e|]];
      [by rewrite app_nil_r|].
    destruct (json_Marshal context) as [contextBytes [e|]];
      [by rewrite app_nil_r|].
    unfold_monad. cbn. unfold json_Unmarshal.
    repeat (case_match; simplify_eq/=; try done). }
  split; [done|]. rewrite Hcalls.
  destruct (json_Marshal event) as [eventBytes [e|]]; [constructor|].
  destruct (json_Marshal context) as [contextBytes [e|]]; [constructor|].
  repeat constructor. eexists. split; [done|]. done.
Qed.

(** X10.  A transport error is handed back as it is, without streams, after
    the one call; this holds even if the service also returned an output. *)
Theorem Invoke_transport_error f event context kind w eventBytes contextBytes
    res e x :
  json_Marshal event = (eventBytes, None) →
  json_Marshal context = (contextBytes, None) →
  lambda.Invoke (InvokeInput f eventBytes contextBytes kind) (ext w)
    = ((res, Some e), x) →
  result (Invoke f event context kind) w = Done (None, None, Some e).
Proof.
  intros Hevent Hcontext Hreply. unfold result, Invoke.
  rewrite Hevent, Hcontext. unfold_monad. cbn. by rewrite Hreply.
Qed.

(** X11.  A successful invocation of a kind other than [Event] returns the
    payload as the reply stream and the base64 decoding of the log tail as
    the log stream: reading the reply to the end yields the payload bytes,
    reading the logs yields what the base64 decoder makes of the tail. *)
Theorem Invoke_reply_and_logs f event context kind w eventBytes contextBytes
    res x logResult :
  json_Marshal event = (eventBytes, None) →
  json_Marshal context = (contextBytes, None) →
  lambda.Invoke (InvokeInput f eventBytes contextBytes kind) (ext w)
    = ((Some res, None), x) →
  lambda.FunctionError res = None →
  kind ≠ Event →
  lambda.LogResult res = Some logResult →
  result (Invoke f event context kind) w
    = Done (Some (bytes_Reader (lambda.Payload res)),
            Some (base64_NewDecoder logResult), None) ∧
  ioutil_ReadAll (bytes_Reader (lambda.Payload res))
    = (lambda.Payload res, None) ∧
  ioutil_ReadAll (base64_NewDecoder logResult) = base64_Decode logResult.
Proof.
  intros Hevent Hcontext Hreply Hmarker Hkind Hlog.
  destruct (Invoke_after_reply _ _ _ _ _ _ _ _ _ Hevent Hcontext Hreply)
    as [_ Hres].
  by rewrite Hmarker, Hlog, (proj2 (String.eqb_neq _ _) Hkind) in Hres.
Qed.

(** X12.  A response without a log tail makes [Invoke] panic unless the kind
    is [Event]: the tail is dereferenced without a nil check.  The call has
    been issued by then. *)
Theorem Invoke_missing_log_tail_panics f event context kind w eventBytes
    contextBytes res x :
  json_Marshal event = (eventBytes, None) →
  json_Marshal context = (contextBytes, None) →
  lambda.Invoke (InvokeInput f eventBytes contextBytes kind) (ext w)
    = ((Some res, None), x) →
  lambda.FunctionError res = None →
  kind ≠ Event →
  lambda.LogResult res = None →
  result (Invoke f event context kind) w
    = Panic "invalid memory address or nil pointer dereference" ∧
  issued (Invoke f event context kind) w
    = [lambda.CallInvoke (InvokeInput f eventBytes contextBytes kind)].
Proof.
  intros Hevent Hcontext Hreply Hmarker Hkind Hlog.
  destruct (Invoke_after_reply _ _ _ _ _ _ _ _ _ Hevent Hcontext Hreply)
    as [Hcalls Hres].
  by rewrite Hmarker, Hlog, (proj2 (String.eqb_neq _ _) Hkind) in Hres.
Qed.

(** X13.  The outcomes of [Invoke] exclude each other: whenever it returns,
    it returns either both streams and no error, or an error and no
    stream. *)
Theorem Invoke_streams_or_error f event context kind w reply logs err :
  result (Invoke f event context kind) w = Done (reply, logs, err) →
  (err = None ∧ is_Some reply ∧ is_Some logs) ∨
  (is_Some err ∧ reply = None ∧ logs = None).
Proof.
  unfold result, Invoke.
  destruct (json_Marshal event) as [eventBytes [e|]];
    [intros [= <- <- <-]; eauto|].
  destruct (json_Marshal context) as [contextBytes [e|]];
    [intros [= <- <- <-]; eauto|].
  unfold_monad. cbn. unfold json_Unmarshal.
  repeat (case_match; simplify_eq/=; try done);
    intros [= <- <- <-]; eauto 6.
Qed.

(** ** Rolling back *)

(** X14.  [Rollback] gives up at the first read that fails: an error from
    [GetAlias] is returned before the versions are listed, an error from
    [ListVersionsByFunction] is returned before any alias write. *)
Theorem Rollback_read_errors f w :
  (∀ a e x,
     lambda.GetAlias (GetAliasInput f) (ext w) = ((a, Some e), x) →
     result (Rollback f) w = Done (Some e) ∧
     issued (Rollback f) w = [lambda.CallGetAlias (GetAliasInput f)])
  ∧ (∀ alias current x l e x',
     lambda.GetAlias (GetAliasInput f) (ext w) = ((Some alias, None), x) →
     lambda.FunctionVersion alias = Some current →
     lambda.ListVersionsByFunction (ListVersionsByFunctionInput f) x
       = ((l, Some e), x') →
     result (Rollback f) w = Done (Some e) ∧
     issued (Rollback f) w =
       [lambda.CallGetAlias (GetAliasInput f);
        lambda.CallListVersionsByFunction (ListVersionsByFunctionInput f)]).
Proof.
  split.
  - intros a e x Halias.
    split; [unfold result | apply issued_app].
    all: unfold Rollback; unfold_monad; cbn; by rewrite Halias.
  - intros alias current x l e x' Halias Hcur Hlist.
    split; [unfold result | apply issued_app].
    all: unfold Rollback; unfold_monad; cbn.
    all: rewrite Halias; cbn; rewrite Hcur; cbn; rewrite Hlist; cbn.
    all: by rewrite <- ?app_assoc.
Qed.

(** X15.  [RollbackVersion] writes nothing unless it has read the alias: an
    error from [GetAlias] is returned as it is, and an alias that comes
    back without a version makes the run panic; in both cases the read is
    the only call. *)
Theorem RollbackVersion_read_failure f version w :
  (∀ a e x,
     lambda.GetAlias (GetAliasInput f) (ext w) = ((a, Some e), x) →
     result (RollbackVersion f version) w = Done (Some e) ∧
     issued (RollbackVersion f version) w
       = [lambda.CallGetAlias (GetAliasInput f)])
  ∧ (∀ a x,
     lambda.GetAlias (GetAliasInput f) (ext w) = ((a, None), x) →
     a ≫= lambda.FunctionVersion = None →
     result (RollbackVersion f version) w
       = Panic "invalid memory address or nil pointer dereference" ∧
     issued (RollbackVersion f version) w
       = [lambda.CallGetAlias (GetAliasInput f)]).
Proof.
  split.
  - intros a e x Halias.
    split; [unfold result | apply issued_app].
    all: unfold RollbackVersion; unfold_monad; cbn; by rewrite Halias.
  - intros a x Halias Hnil.
    split; [unfold result | apply issued_app].
    all: unfold RollbackVersion; unfold_monad; cbn; rewrite Halias; cbn.
    all: destruct a as [alias|]; cbn; [|done].
    all: simpl in Hnil; by rewrite Hnil.
Qed.

(** X16.  Rolling back twice against a service that honours the first write
    and lists the same versions: if the alias started on one of the two
    newest versions it is back where it started; if it started further
    back it ends on the second newest.  [Rollback] toggles between the two
    newest versions and never reaches an older one. *)
Theorem Rollback_twice f w w' alias current x list x' alias' x2 list' x2'
    first older p l prev latest :
  lambda.GetAlias (GetAliasInput f) (ext w) = ((Some alias, None), x) →
  lambda.FunctionVersion alias = Some current →
  lambda.ListVersionsByFunction (ListVersionsByFunctionInput f) x
    = ((Some list, None), x') →
  lambda.Versions list = first :: older ++ [Some p; Some l] →
  lambda.Version p = Some prev →
  lambda.Version l = Some latest →
  prev ≠ latest →
  lambda.GetAlias (GetAliasInput f) (ext w') = ((Some alias', None), x2) →
  alias_writes (issued (Rollback f) w)
    = [(CurrentAlias, lambda.FunctionVersion alias')] →
  lambda.ListVersionsByFunction (ListVersionsByFunctionInput f) x2
    = ((Some list', None), x2') →
  lambda.Versions list' = lambda.Versions list →
  ∃ target,
    alias_writes (issued (Rollback f) w') = [(CurrentAlias, Some target)] ∧
    (current = latest ∨ current = prev → target = current) ∧
    (current ≠ latest → current ≠ prev → target = prev).
Proof.
  intros Halias Hcur Hlist Hvs Hprev Hlatest Hne Halias' Hfirst Hlist' Hvs'.
  assert (∀ vs : Datatypes.list (option lambda.FunctionConfiguration),
            vs = older ++ [Some p; Some l] →
            ¬ length vs < 2 ∧
            vs !! (length vs - 2) = Some (Some p) ∧
            vs !! (length vs - 1) = Some (Some l)) as Hlast.
  { intros vs ->. rewrite length_app. simpl. split; [lia|]. split.
    - rewrite lookup_app_r by lia. by replace (_ - _ - _) with 0 by lia.
    - rewrite lookup_app_r by lia. by replace (_ - _ - _) with 1 by lia. }
  destruct (Hlast _ eq_refl) as (Hlen & Hp & Hl).
  pose proof (Rollback_run f w _ _ _ _ _ Halias Hcur Hlist) as Hrun.
  cbn zeta in Hrun. rewrite Hvs, (decide_False _ _ Hlen) in Hrun.
  destruct (Hrun p l prev latest Hp Hl Hprev Hlatest) as [_ Hcalls].
  rewrite Hcalls in Hfirst. simpl in Hfirst.
  injection Hfirst as Hcur'. symmetry in Hcur'.
  pose proof (Rollback_run f w' _ _ _ _ _ Halias' Hcur' Hlist') as Hrun'.
  cbn zeta in Hrun'. rewrite Hvs', Hvs, (decide_False _ _ Hlen) in Hrun'.
  destruct (Hrun' p l prev latest Hp Hl Hprev Hlatest) as [_ Hcalls'].
  rewrite Hcalls'. simpl. eexists. split; [done|].
  destruct (String.eqb_spec current latest) as [->|Hcl].
  - rewrite (proj2 (String.eqb_neq _ _) Hne). split; [done|]. done.
  - rewrite String.eqb_refl. split; [|done]. by intros [?|?].
Qed.

Lemma Rollback_confined f :
  confined (λ c, rollback_call c = true) (Rollback f).
Proof. unfold Rollback. confined_steps. Qed.

Lemma RollbackVersion_confined f version :
  confined (λ c, rollback_call c = true) (RollbackVersion f version).
Proof. unfold RollbackVersion. confined_steps. Qed.

(** X17.  Whatever the service answers, [Rollback] and [RollbackVersion]
    issue nothing but reads of the alias "current", listings of the
    versions and updates of the alias "current", of which there is at most
    one: they never publish code, never create or delete anything. *)
Theorem rollbacks_only_move_the_current_alias f version w :
  Forall (λ c, rollback_call c = true) (issued (Rollback f) w) ∧
  length (alias_writes (issued (Rollback f) w)) ≤ 1 ∧
  Forall (λ c, rollback_call c = true) (issued (RollbackVersion f version) w) ∧
  length (alias_writes (issued (RollbackVersion f version) w)) ≤ 1.
Proof.
  split; [apply confined_issued, Rollback_confined|].
  split.
  { assert (∃ cs, calls (Rollback f w).2 = calls w ++ cs ∧
                  length (alias_writes cs) ≤ 1) as (cs & Hcs & Hlen).
    { unfold Rollback. unfold_monad. cbn.
      repeat (case_match; simplify_eq/=);
        rewrite <- ?app_assoc; eexists; (split; [done|]); simpl; lia. }
    by rewrite (issued_app _ _ _ Hcs). }
  split; [apply confined_issued, RollbackVersion_confined|].
  assert (∃ cs, calls (RollbackVersion f version w).2 = calls w ++ cs ∧
                length (alias_writes cs) ≤ 1) as (cs & Hcs & Hlen).
  { unfold RollbackVersion. unfold_monad. cbn.
    repeat (case_match; simplify_eq/=);
      rewrite <- ?app_assoc; eexists; (split; [done|]); simpl; lia. }
  by rewrite (issued_app _ _ _ Hcs).
Qed.

(** ** Environment and packaging *)

(** X18.  [SetEnv] behaves as an insertion into the environment: afterwards
    the environment is set, the variable reads back with the value given,
    every other variable reads as before, and nothing else of the function
    has changed. *)
Theorem SetEnv_lookup f name value :
  env (SetEnv f name value) ≠ None ∧
  default ∅ (env (SetEnv f name value)) !! name = Some value ∧
  (∀ other, other ≠ name →
     default ∅ (env (SetEnv f name value)) !! other
       = default ∅ (env f) !! other) ∧
  config (SetEnv f name value) = config f ∧
  runtime (SetEnv f name value) = runtime f ∧
  (Name (SetEnv f name value), FunctionName (SetEnv f name value),
   Path (SetEnv f name value), Log (SetEnv f name value))
    = (Name f, FunctionName f, Path f, Log f).
Proof.
  split; [done|]. split; [apply lookup_insert_eq|].
  split; [|done]. intros other Hother. simpl. by rewrite lookup_insert_ne.
Qed.

(** X19.  Setting a variable twice keeps the last value, and setting two
    different variables gives the same function in either order. *)
Theorem SetEnv_overwrites_and_commutes f name1 value1 name2 value2 :
  SetEnv (SetEnv f name1 value1) name1 value2 = SetEnv f name1 value2 ∧
  (name1 ≠ name2 →
   SetEnv (SetEnv f name1 value1) name2 value2
     = SetEnv (SetEnv f name2 value2) name1 value1).
Proof.
  split.
  - unfold SetEnv. simpl. by rewrite insert_insert_eq.
  - intros Hne. unfold SetEnv. simpl. by rewrite insert_insert_ne.
Qed.

(** X20.  [Zip] on a function that was never opened panics when it asks the
    nil runtime whether it is shimmed, provided the environment, if set,
    serializes. *)
Theorem Zip_unopened_panics f w :
  runtime f = None →
  (∀ m, env f = Some m → (json_Marshal_env m).2 = None) →
  result (Zip f) w = Panic "invalid memory address or nil pointer dereference".
Proof.
  intros Hr Henv. unfold result, Zip. rewrite Hr. unfold_monad. cbn.
  destruct (env f) as [m|]; cbn; [|done].
  specialize (Henv m eq_refl).
  destruct (json_Marshal_env m) as [b merr]. simpl in Henv. by subst merr.
Qed.

(** X21.  [Zip] produces no partial archive: whenever it returns, it returns
    either a reader and no error, or an error and no reader. *)
Theorem Zip_reader_or_error f w rd err :
  result (Zip f) w = Done (rd, err) →
  (err = None ∧ is_Some rd) ∨ (is_Some err ∧ rd = None).
Proof.
  unfold result, Zip. unfold_monad. cbn.
  repeat (case_match; simplify_eq/=; try done); intros [= <- <-]; eauto.
Qed.

Lemma Clean_quiet f : quiet (Clean f).
Proof. unfold Clean. quiet_steps. Qed.

Lemma Open_quiet f : quiet (Open f).
Proof. unfold Open. quiet_steps. Qed.

(** X22.  Opening, packaging and cleaning are local: [Open], [Zip],
    [ZipBytes] and [Clean] never issue a call to the service. *)
Theorem local_operations_issue_no_call f w :
  issued (Open f) w = [] ∧ issued (Zip f) w = [] ∧
  issued (ZipBytes f) w = [] ∧ issued (Clean f) w = [].
Proof.
  repeat split; apply issued_app; rewrite app_nil_r.
  - apply Open_quiet.
  - apply Zip_quiet.
  - apply ZipBytes_quiet.
  - apply Clean_quiet.
Qed.

(** ** Opening *)

Ltac open_run Hload :=
  unfold Open; unfold_monad; cbn;
  destruct Hload as [(e0 & -> & ->)|(file & -> & Hdecode)];
  [|rewrite Hdecode]; cbn.

(** X23.  A missing function.json is not an error, and a configured runtime
    is never replaced: when the loaded configuration names a runtime,
    [Open] validates exactly that configuration, without consulting
    runtime detection. *)
Theorem Open_keeps_configured_runtime f w c :
  loaded f w c →
  Runtime c ≠ "" →
  ∃ f' err, Open f w = (Done (f', err), w) ∧ config f' = c.
Proof.
  intros Hload Hr. apply String.eqb_neq in Hr.
  open_run Hload; rewrite Hr; cbn.
  all: destruct (validator_Validate _); [by eexists _, _|].
  all: destruct (runtime_ByName _) as [r [e|]]; by eexists _, _.
Qed.

(** X24.  When the loaded configuration names no runtime, the detected one
    is filled in before validation; if detection fails the runtime stays
    empty, so [Open] returns an error and binds no runtime. *)
Theorem Open_detects_runtime f w c :
  loaded f w c →
  Runtime c = "" →
  (∀ name,
     runtime_Detect (Path f) (ext w) = (name, None) →
     ∃ f' err, Open f w = (Done (f', err), w) ∧
               config f' = set_Runtime c name)
  ∧ (∀ name e,
     runtime_Detect (Path f) (ext w) = (name, Some e) →
     ∃ f' err, Open f w = (Done (f', Some err), w) ∧
               config f' = c ∧ runtime f' = runtime f).
Proof.
  intros Hload Hr. split.
  - intros name Hdetect.
    open_run Hload; rewrite Hr; cbn; rewrite Hdetect; cbn.
    all: destruct (validator_Validate _); [by eexists _, _|].
    all: destruct (runtime_ByName _) as [r [e|]]; by eexists _, _.
  - intros name e Hdetect.
    open_run Hload; rewrite Hr; cbn; rewrite Hdetect; cbn.
    all: unfold validator_Validate, nonzero_violations; simpl.
    all: rewrite Hr; simpl; by eexists _, _.
Qed.

(** X25.  A function.json that does not decode aborts [Open]: the decoder's
    error is returned as it is, before detection and validation, and no
    runtime is bound. *)
Theorem Open_decode_error f w file c e :
  os_Open (filepath_Join (Path f) "function.json") (ext w) = inl file →
  json_Decode_Config file (config f) = (c, Some e) →
  ∃ f', Open f w = (Done (f', Some e), w) ∧
        config f' = c ∧ runtime f' = runtime f.
Proof.
  intros Hopen Hdecode. unfold Open. unfold_monad. cbn.
  rewrite Hopen, Hdecode. cbn. by eexists.
Qed.


(** X27.  A successful [Open] tags the logger with the function's name and
    leaves the name, the remote name, the path and the environment of the
    function as they were. *)
Theorem Open_success_tags_logger f w f' w' :
  Open f w = (Done (f', None), w') →
  Log f' = Log f ++ [("function", Name f)] ∧
  Name f' = Name f ∧ FunctionName f' = FunctionName f ∧
  Path f' = Path f ∧ env f' = env f.
Proof.
  unfold Open. unfold_monad. cbn.
  repeat (case_match; simplify_eq/=; try done); by intros [= <- <-].
Qed.

End properties.

(** * Runs on the stand-in service *)

(** The four outcomes of the deploy decision, on four remotes. *)
Lemma DeployCode_decision_witness :
  (times "CreateFunction" (issued (DeployCode stub.hello) (stub.start stub.absent)) = 1 ∧
   times "UpdateFunctionCode" (issued (DeployCode stub.hello) (stub.start stub.absent)) = 0)
  ∧ issued (DeployCode stub.hello) (stub.start stub.denied)
      = [lambda.CallGetFunction (GetFunctionInput stub.hello)]
  ∧ List.filter mutating (issued (DeployCode stub.hello) (stub.start stub.remote)) = []
  ∧ (times "UpdateFunctionCode" (issued (DeployCode stub.hello) (stub.start stub.stale)) = 1 ∧
     times "CreateFunction" (issued (DeployCode stub.hello) (stub.start stub.stale)) = 0).
Proof.
  split; [|split; [|split]].
  - edestruct (DeployCode_decision stub.hello (stub.start stub.absent))
      as (Hcreate & _ & _); [lazy; reflexivity | lazy; reflexivity |].
    destruct (Hcreate _ eq_refl) as (_ & Hc & Hu). exact (conj Hc Hu).
  - edestruct (DeployCode_decision stub.hello (stub.start stub.denied))
      as (_ & Habort & _); [lazy; reflexivity | lazy; reflexivity |].
    destruct (Habort _ eq_refl) as (_ & Hq); [discriminate | exact Hq].
  - edestruct (DeployCode_decision stub.hello (stub.start stub.remote))
      as (_ & _ & Hhash); [lazy; reflexivity | lazy; reflexivity |].
    destruct (Hhash _ _ _ eq_refl eq_refl eq_refl eq_refl) as (Hsame & _).
    destruct (Hsame eq_refl) as (_ & _ & _ & Hm). exact Hm.
  - edestruct (DeployCode_decision stub.hello (stub.start stub.stale))
      as (_ & _ & Hhash); [lazy; reflexivity | lazy; reflexivity |].
    destruct (Hhash _ _ _ eq_refl eq_refl eq_refl eq_refl) as (_ & Hdiff).
    destruct Hdiff as (_ & Hu & Hc); [discriminate | exact (conj Hu Hc)].
Defined.

(** The alias writes on a remote that publishes version 4 on update and
    version 1 on create, and on a remote that refuses to publish. *)
Lemma Create_Update_end_with_one_alias_write_witness :
  alias_writes (issued (Update stub.hello stub.abc) (stub.start stub.remote))
    = [("current", Some "4")]
  ∧ alias_writes (issued (Update stub.hello stub.abc) (stub.start stub.frozen)) = []
  ∧ alias_writes (issued (Create stub.hello stub.abc) (stub.start stub.remote))
    = [("current", Some "1")]
  ∧ alias_writes (issued (Create stub.hello stub.abc) (stub.start stub.frozen)) = [].
Proof.
  destruct (Create_Update_end_with_one_alias_write stub.hello stub.abc
              (stub.start stub.remote)) as (Hupdate & _ & Hcreate & _).
  destruct (Create_Update_end_with_one_alias_write stub.hello stub.abc
              (stub.start stub.frozen)) as (_ & Hupdate' & _ & Hcreate').
  split; [|split; [|split]].
  - exact (proj2 (Hupdate _ _ eq_refl)).
  - exact (proj2 (Hupdate' _ _ _ eq_refl)).
  - exact (proj2 (Hcreate _ _ _ eq_refl eq_refl)).
  - exact (proj2 (Hcreate' _ _ _ _ eq_refl eq_refl)).
Defined.

(** Rolling back on the listing [$LATEST, 1, 2, 3] with the alias on 3 and
    on 2, and on the listing [$LATEST, 1]. *)
Lemma Rollback_target_witness :
  alias_writes (issued (Rollback stub.hello) (stub.start stub.remote))
    = [("current", Some "2")]
  ∧ alias_writes (issued (Rollback stub.hello)
                    (stub.start (stub.with_getAlias (stub.alias "2") stub.remote)))
    = [("current", Some "3")]
  ∧ result (Rollback stub.hello)
      (stub.start (stub.with_listVersions
                     [stub.version "$LATEST"; stub.version "1"] stub.remote))
    = Done (Some (errorString "Can't rollback. Only one version deployed.")).
Proof.
  split; [|split].
  - edestruct (Rollback_target stub.hello (stub.start stub.remote))
      as (_ & Hgo); [reflexivity..|].
    edestruct (Hgo [stub.version "1"]) as (target & Hw & Hon & _);
      [reflexivity..|].
    rewrite (Hon eq_refl) in Hw. exact Hw.
  - edestruct (Rollback_target stub.hello
                 (stub.start (stub.with_getAlias (stub.alias "2") stub.remote)))
      as (_ & Hgo); [reflexivity..|].
    edestruct (Hgo [stub.version "1"]) as (target & Hw & _ & Hoff);
      [reflexivity..|].
    rewrite Hoff in Hw; [exact Hw | discriminate].
  - edestruct (Rollback_target stub.hello
                 (stub.start (stub.with_listVersions
                    [stub.version "$LATEST"; stub.version "1"] stub.remote)))
      as (Hshort & _); [reflexivity..|].
    apply Hshort. simpl. lia.
Defined.

(** Rolling back on a remote whose listing comes back empty. *)
Lemma Rollback_empty_listing_panics_witness :
  result (Rollback stub.hello)
    (stub.start (stub.with_listVersions [] stub.remote))
  = Panic "slice bounds out of range".
Proof.
  edestruct (Rollback_empty_listing_panics stub.hello
               (stub.start (stub.with_listVersions [] stub.remote)))
    as (Hpanic & _); [reflexivity..|].
  exact Hpanic.
Defined.

(** The alias is on 3: asking for 3 is refused; asking for 7, which the
    listing does not have, is written. *)
Lemma RollbackVersion_guard_witness :
  alias_writes (issued (RollbackVersion stub.hello "3") (stub.start stub.remote)) = []
  ∧ alias_writes (issued (RollbackVersion stub.hello "7") (stub.start stub.remote))
    = [("current", Some "7")].
Proof.
  split.
  - edestruct (RollbackVersion_guard stub.hello "3" (stub.start stub.remote))
      as (Hsame & _); [reflexivity..|].
    exact (proj2 (proj2 (Hsame eq_refl))).
  - edestruct (RollbackVersion_guard stub.hello "7" (stub.start stub.remote))
      as (_ & Hother); [reflexivity..|].
    refine (proj2 (proj2 (Hother _))). discriminate.
Defined.

(** A handled failure whose payload carries a message, a type and one
    stack frame. *)
Lemma Invoke_function_error_witness :
  ∃ e,
    result (Invoke stub.hello "ev" "ctx" RequestResponse)
      (stub.start (stub.with_invoke (stub.handled_failure stub.payload_boom)
                     stub.remote))
    = Done (None, None, Some (InvokeError_ptr e)) ∧
    Message e = "boom" ∧ Type_ e = "Error" ∧ Stack e = ["at handler"] ∧
    Handled e = true.
Proof.
  edestruct (Invoke_function_error stub.hello "ev" "ctx" RequestResponse
               (stub.start (stub.with_invoke
                  (stub.handled_failure stub.payload_boom) stub.remote)))
    as (e & Hres & Hm & Ht & Hs & Hh); [reflexivity..|].
  exists e. split; [exact Hres|].
  split; [exact Hm|]. split; [exact Ht|]. split; [exact Hs|].
  exact (proj1 (Hh eq_refl)).
Defined.

(** A fire-and-forget invocation that the remote accepts. *)
Lemma Invoke_Event_empty_streams_witness :
  result (Invoke stub.hello "ev" "ctx" Event) (stub.start stub.remote)
  = Done (Some (bytes_Reader []), Some (bytes_Reader []), None).
Proof.
  edestruct (Invoke_Event_empty_streams stub.hello "ev" "ctx"
               (stub.start stub.remote))
    as (Hres & _); [reflexivity..|].
  exact Hres.
Defined.

(** An unhandled failure with an empty payload. *)
Lemma Invoke_undecodable_function_error_witness :
  result (Invoke stub.hello "ev" "ctx" RequestResponse)
    (stub.start (stub.with_invoke (stub.failure []) stub.remote))
  = Done (None, None, Some (foreign "unexpected end of JSON input")).
Proof.
  edestruct (Invoke_undecodable_function_error stub.hello "ev" "ctx"
               RequestResponse
               (stub.start (stub.with_invoke (stub.failure []) stub.remote)))
    as (Hres & _); [reflexivity..|].
  exact Hres.
Defined.

(** Packaging a compiled, shimmed function with its environment set, and
    an interpreted one without. *)
Lemma Zip_entries_witness :
  (∃ buf, result (Zip stub.gopher) (stub.start stub.remote)
          = Done (Some (bytes_Reader buf), None))
  ∧ (∃ buf, result (Zip stub.hello) (stub.start stub.remote)
            = Done (Some (bytes_Reader buf), None)).
Proof.
  split.
  - edestruct (Zip_entries stub.gopher (stub.start stub.remote) stub.golang)
      as (Hres & _); [reflexivity | reflexivity | reflexivity | | | |].
    + intros _. split; reflexivity.
    + reflexivity.
    + reflexivity.
    + eexists. exact Hres.
  - edestruct (Zip_entries stub.hello (stub.start stub.remote) stub.nodejs
                 stub.remote [] [])
      as (Hres & _); [reflexivity | reflexivity | discriminate | | | |].
    + discriminate.
    + reflexivity.
    + reflexivity.
    + eexists. exact Hres.
Defined.

(** Opening with memory 0 is refused, with memory 128 it is accepted. *)
Lemma Open_rejects_zero_values_witness :
  (∃ f' err, Open (stub.fresh 0 3) (stub.start stub.remote)
             = (Done (f', err), stub.start stub.remote) ∧ err ≠ None)
  ∧ (∃ f', Open (stub.fresh 128 3) (stub.start stub.remote)
           = (Done (f', None), stub.start stub.remote) ∧
           Memory (config f') ≠ 0%Z ∧ runtime f' = Some stub.nodejs).
Proof.
  split.
  - destruct (Open_rejects_zero_values (stub.fresh 0 3)
                (stub.start stub.remote)) as (f' & err & Hrun & Hreject & _).
    exists f', err. split; [exact Hrun|]. apply Hreject. left.
    lazy in Hrun. injection Hrun as <- _. reflexivity.
  - destruct (Open_rejects_zero_values (stub.fresh 128 3)
                (stub.start stub.remote)) as (f' & err & Hrun & _ & Haccept).
    exists f'. assert (Hrun' := Hrun). lazy in Hrun'.
    injection Hrun' as Hf Herr. subst err.
    split; [exact Hrun|].
    destruct (Haccept eq_refl) as (Hm & _).
    split; [exact Hm|]. rewrite <- Hf. reflexivity.
Defined.

(** * Where the code departs from the specification *)

(** C4, counterexample.  A response with a function-error marker does not
    always come back as an [InvokeError]: with an empty payload [Invoke]
    returns the error of the json package. *)
Lemma Invoke_function_error_counterexample :
  lambda.FunctionError <$> (stub.failure []).1 = Some (Some "Unhandled") ∧
  result (Invoke stub.hello "ev" "ctx" RequestResponse)
    (stub.start (stub.with_invoke (stub.failure []) stub.remote))
  = Done (None, None, Some (foreign "unexpected end of JSON input")) ∧
  ¬ ∃ e, result (Invoke stub.hello "ev" "ctx" RequestResponse)
           (stub.start (stub.with_invoke (stub.failure []) stub.remote))
         = Done (None, None, Some (InvokeError_ptr e)).
Proof. split; [done|]. split; [done|]. by intros [e He]. Qed.

(** C8, counterexample.  A configuration with memory -128 passes [Open],
    and so does one with timeout -3. *)
Lemma Open_accepts_negative_values :
  (Memory (config (stub.fresh (-128) 3)) ≤ 0)%Z ∧
  (∃ f', Open (stub.fresh (-128) 3) (stub.start stub.remote)
         = (Done (f', None), stub.start stub.remote) ∧
         Memory (config f') = (-128)%Z) ∧
  (Timeout (config (stub.fresh 128 (-3))) ≤ 0)%Z ∧
  (∃ f', Open (stub.fresh 128 (-3)) (stub.start stub.remote)
         = (Done (f', None), stub.start stub.remote) ∧
         Timeout (config f') = (-3)%Z).
Proof.
  split; [done|]. split; [eexists; split; reflexivity|].
  split; [done|]. eexists; split; reflexivity.
Qed.

(** * Further runs on the stand-in service *)

(** A deployment whose query is refused does not push the configuration. *)
Lemma Deploy_stops_at_first_failure_witness :
  times "UpdateFunctionConfiguration"
    (issued (Deploy stub.hello) (stub.start stub.denied)) = 0.
Proof.
  edestruct (Deploy_stops_at_first_failure stub.hello (stub.start stub.denied))
    as (_ & Hno); [lazy; reflexivity|].
  exact Hno.
Defined.

(** A deployment of unchanged code queries and pushes the configuration. *)
Lemma Deploy_unchanged_code_pushes_config_witness :
  issued (Deploy stub.hello) (stub.start stub.remote) =
    [lambda.CallGetFunction (GetFunctionInput stub.hello);
     lambda.CallUpdateFunctionConfiguration
       (UpdateFunctionConfigurationInput stub.hello stub.nodejs)].
Proof.
  edestruct (Deploy_unchanged_code_pushes_config stub.hello
               (stub.start stub.remote)) as (Hcalls & _);
    [lazy; reflexivity | lazy; reflexivity | reflexivity | reflexivity
    | reflexivity |].
  exact Hcalls.
Defined.

(** A deployment whose build fails. *)
Lemma DeployCode_build_failure_witness :
  result (DeployCode stub.crab) (stub.start stub.remote)
    = Done (Some (errorString "compiling: exit status 101")) ∧
  issued (DeployCode stub.crab) (stub.start stub.remote) = [].
Proof.
  exact (DeployCode_build_failure stub.crab (stub.start stub.remote)
           stub.rust _ _ _ eq_refl eq_refl eq_refl).
Defined.

(** A deployment against a remote that reports no code hash. *)
Lemma DeployCode_missing_hash_panics_witness :
  result (DeployCode stub.hello) (stub.start stub.hashless)
    = Panic "invalid memory address or nil pointer dereference".
Proof.
  edestruct (DeployCode_missing_hash_panics stub.hello
               (stub.start stub.hashless)) as (Hpanic & _);
    [lazy; reflexivity | lazy; reflexivity | reflexivity |].
  exact Hpanic.
Defined.

(** Creating a function that was never opened. *)
Lemma unopened_function_panics_before_any_call_witness :
  issued (Create (stub.fresh 128 3) stub.abc) (stub.start stub.remote) = [] ∧
  issued (DeployConfig (stub.fresh 128 3)) (stub.start stub.remote) = [].
Proof.
  destruct (unopened_function_panics_before_any_call (stub.fresh 128 3)
              stub.abc (stub.start stub.remote) eq_refl)
    as (_ & Hcreate & _ & Hconfig).
  exact (conj Hcreate Hconfig).
Defined.

(** Updating and creating against a remote whose alias calls fail. *)
Lemma alias_failure_is_not_compensated_witness :
  result (Update stub.hello stub.abc) (stub.start stub.aliasless)
    = Done (Some stub.throttled) ∧
  result (Create stub.hello stub.abc) (stub.start stub.aliasless)
    = Done (Some stub.throttled).
Proof.
  destruct (alias_failure_is_not_compensated stub.hello stub.abc
              (stub.start stub.aliasless)) as (Hupdate & Hcreate).
  split.
  - exact (proj1 (Hupdate _ _ _ _ _ eq_refl eq_refl)).
  - exact (proj1 (Hcreate _ _ _ _ _ _ eq_refl eq_refl eq_refl)).
Defined.

(** Invoking with an event, and with a context, that does not serialize. *)
Lemma Invoke_serialization_failure_witness :
  @Invoke _ _ stub.service stub.fussy stub.hello "" "ctx" Event
     (stub.start stub.remote)
    = (Done (None, None, Some (foreign "json: unsupported value")),
       stub.start stub.remote) ∧
  @Invoke _ _ stub.service stub.fussy stub.hello "ev" "" Event
     (stub.start stub.remote)
    = (Done (None, None, Some (foreign "json: unsupported value")),
       stub.start stub.remote).
Proof.
  split.
  - exact (proj1 (@Invoke_serialization_failure _ _ stub.service stub.fussy
                    stub.hello "" "ctx" Event (stub.start stub.remote))
             _ _ eq_refl).
  - exact (proj2 (@Invoke_serialization_failure _ _ stub.service stub.fussy
                    stub.hello "ev" "" Event (stub.start stub.remote))
             _ _ _ eq_refl eq_refl).
Defined.

(** Invoking a remote that cannot be reached. *)
Lemma Invoke_transport_error_witness :
  result (Invoke stub.hello "ev" "ctx" RequestResponse)
    (stub.start stub.unreachable)
  = Done (None, None, Some stub.throttled).
Proof.
  exact (Invoke_transport_error stub.hello "ev" "ctx" RequestResponse
           (stub.start stub.unreachable) _ _ _ _ _ eq_refl eq_refl eq_refl).
Defined.

(** A synchronous invocation that succeeds. *)
Lemma Invoke_reply_and_logs_witness :
  result (Invoke stub.hello "ev" "ctx" RequestResponse) (stub.start stub.remote)
  = Done (Some (bytes_Reader stub.payload_empty_object),
          Some (base64_NewDecoder "bG9n"), None).
Proof.
  edestruct (Invoke_reply_and_logs stub.hello "ev" "ctx" RequestResponse
               (stub.start stub.remote)) as (Hres & _);
    [reflexivity | reflexivity | reflexivity | reflexivity | discriminate
    | reflexivity |].
  exact Hres.
Defined.

(** A dry run, answered without a log tail. *)
Lemma Invoke_missing_log_tail_panics_witness :
  result (Invoke stub.hello "ev" "ctx" DryRun) (stub.start stub.dry)
  = Panic "invalid memory address or nil pointer dereference".
Proof.
  edestruct (Invoke_missing_log_tail_panics stub.hello "ev" "ctx" DryRun
               (stub.start stub.dry)) as (Hres & _);
    [reflexivity | reflexivity | reflexivity | reflexivity | discriminate
    | reflexivity |].
  exact Hres.
Defined.

(** The two kinds of outcome of an invocation. *)
Lemma Invoke_streams_or_error_witness :
  ((None : option error) = None ∧ is_Some (Some (bytes_Reader [])) ∧
   is_Some (Some (bytes_Reader []))) ∨
  (is_Some (None : option error) ∧ Some (bytes_Reader []) = None ∧
   Some (bytes_Reader []) = None).
Proof.
  exact (Invoke_streams_or_error stub.hello "ev" "ctx" Event
           (stub.start stub.remote) _ _ _ eq_refl).
Defined.

(** Rolling back when the alias cannot be read, and when the versions cannot
    be listed. *)
Lemma Rollback_read_errors_witness :
  issued (Rollback stub.hello) (stub.start stub.unreadable)
    = [lambda.CallGetAlias (GetAliasInput stub.hello)] ∧
  result (Rollback stub.hello) (stub.start stub.unlisted)
    = Done (Some stub.throttled).
Proof.
  split.
  - destruct (Rollback_read_errors stub.hello (stub.start stub.unreadable))
      as (Halias & _).
    exact (proj2 (Halias _ _ _ eq_refl)).
  - destruct (Rollback_read_errors stub.hello (stub.start stub.unlisted))
      as (_ & Hlist).
    exact (proj1 (Hlist _ _ _ _ _ _ eq_refl eq_refl eq_refl)).
Defined.

(** Rolling back to a version when the alias cannot be read, and when it
    comes back without a version. *)
Lemma RollbackVersion_read_failure_witness :
  result (RollbackVersion stub.hello "2") (stub.start stub.unreadable)
    = Done (Some stub.throttled) ∧
  result (RollbackVersion stub.hello "2") (stub.start stub.versionless)
    = Panic "invalid memory address or nil pointer dereference".
Proof.
  split.
  - destruct (RollbackVersion_read_failure stub.hello "2"
                (stub.start stub.unreadable)) as (Herr & _).
    exact (proj1 (Herr _ _ _ eq_refl)).
  - destruct (RollbackVersion_read_failure stub.hello "2"
                (stub.start stub.versionless)) as (_ & Hnil).
    exact (proj1 (Hnil _ _ eq_refl eq_refl)).
Defined.

(** Rolling back twice from version 3 of [1, 2, 3]: first to 2, then, with
    the alias on 2, back to 3. *)
Lemma Rollback_twice_witness :
  ∃ target,
    alias_writes (issued (Rollback stub.hello)
                    (stub.start (stub.with_getAlias (stub.alias "2")
                                   stub.remote)))
      = [("current", Some target)] ∧ target = "3".
Proof.
  edestruct Rollback_twice
    with (f := stub.hello) (w := stub.start stub.remote)
         (w' := stub.start (stub.with_getAlias (stub.alias "2") stub.remote))
         (current := "3") (older := [stub.version "1"])
    as (target & Hw & Hback & _);
    [reflexivity | reflexivity | reflexivity | reflexivity | reflexivity
    | reflexivity | | reflexivity | reflexivity | reflexivity | reflexivity |].
  - discriminate.
  - exists target. split; [exact Hw|]. apply Hback. left. reflexivity.
Defined.

(** Setting STAGE leaves REGION readable as before. *)
Lemma SetEnv_lookup_witness :
  default ∅ (env (SetEnv stub.gopher "REGION" "eu")) !! "STAGE" = Some "prod".
Proof.
  destruct (SetEnv_lookup stub.gopher "REGION" "eu") as (_ & _ & Hother & _).
  rewrite (Hother "STAGE"); [reflexivity | discriminate].
Defined.

(** Setting two different variables in either order. *)
Lemma SetEnv_overwrites_and_commutes_witness :
  SetEnv (SetEnv stub.hello "A" "1") "B" "2"
    = SetEnv (SetEnv stub.hello "B" "2") "A" "1".
Proof.
  apply (SetEnv_overwrites_and_commutes stub.hello "A" "1" "B" "2").
  discriminate.
Defined.

(** Packaging a function that was never opened. *)
Lemma Zip_unopened_panics_witness :
  result (Zip (stub.fresh 128 3)) (stub.start stub.remote)
  = Panic "invalid memory address or nil pointer dereference".
Proof.
  apply (Zip_unopened_panics (stub.fresh 128 3) (stub.start stub.remote)).
  - reflexivity.
  - discriminate.
Defined.

(** Packaging [hello] returns a reader and no error; packaging [crab]
    returns an error and no reader. *)
Lemma Zip_reader_or_error_witness :
  (∃ rd, result (Zip stub.hello) (stub.start stub.remote) = Done (Some rd, None)) ∧
  (∃ e, result (Zip stub.crab) (stub.start stub.remote) = Done (None, Some e)).
Proof.
  assert (result (Zip stub.hello) (stub.start stub.remote)
          = Done (Some (bytes_Reader stub.abc), None)) as Hhello
    by (lazy; reflexivity).
  assert (result (Zip stub.crab) (stub.start stub.remote)
          = Done (None, Some (errorString "compiling: exit status 101")))
    as Hcrab by (lazy; reflexivity).
  split.
  - destruct (Zip_reader_or_error _ _ _ _ Hhello) as [Hok|Hfail].
    + eexists. exact Hhello.
    + destruct Hfail as [_ Hrd]. discriminate Hrd.
  - destruct (Zip_reader_or_error _ _ _ _ Hcrab) as [Hok|Hfail].
    + destruct Hok as [Herr _]. discriminate Herr.
    + eexists. exact Hcrab.
Defined.

(** Opening without function.json keeps the configured runtime, although
    detection would find another. *)
Lemma Open_keeps_configured_runtime_witness :
  ∃ f' err,
    @Open _ _ stub.fussy stub.exotic (stub.start stub.remote)
      = (Done (f', err), stub.start stub.remote) ∧
    Runtime (config f') = "cobol".
Proof.
  destruct (@Open_keeps_configured_runtime _ _ stub.fussy stub.exotic
              (stub.start stub.remote) (config stub.exotic))
    as (f' & err & Hrun & Hc).
  - left. eexists. split; reflexivity.
  - discriminate.
  - exists f', err. split; [exact Hrun|]. rewrite Hc. reflexivity.
Defined.

(** Opening with no runtime configured: filled in when detection finds one,
    refused when it does not. *)
Lemma Open_detects_runtime_witness :
  (∃ f' err,
     @Open _ _ stub.fussy stub.unconfigured (stub.start stub.remote)
       = (Done (f', err), stub.start stub.remote) ∧
     Runtime (config f') = "nodejs") ∧
  (∃ f' err,
     Open stub.unconfigured (stub.start stub.remote)
       = (Done (f', Some err), stub.start stub.remote)).
Proof.
  split.
  - destruct (@Open_detects_runtime _ _ stub.fussy stub.unconfigured
                (stub.start stub.remote) (config stub.unconfigured))
      as (Hfound & _).
    + left. eexists. split; reflexivity.
    + reflexivity.
    + destruct (Hfound "nodejs" eq_refl) as (f' & err & Hrun & Hc).
      exists f', err. split; [exact Hrun|]. rewrite Hc. reflexivity.
  - destruct (Open_detects_runtime stub.unconfigured
                (stub.start stub.remote) (config stub.unconfigured))
      as (_ & Hlost).
    + left. eexists. split; reflexivity.
    + reflexivity.
    + destruct (Hlost _ _ eq_refl) as (f' & err & Hrun & _).
      exists f', err. exact Hrun.
Defined.

(** Opening with an empty function.json. *)
Lemma Open_decode_error_witness :
  ∃ f',
    @Open _ _ stub.fussy (stub.fresh 128 3)
      (stub.start (stub.with_function_json (inl []) stub.remote))
    = (Done (f', Some (foreign "EOF")),
       stub.start (stub.with_function_json (inl []) stub.remote)).
Proof.
  destruct (@Open_decode_error _ _ stub.fussy (stub.fresh 128 3)
              (stub.start (stub.with_function_json (inl []) stub.remote))
              [] _ _ eq_refl eq_refl) as (f' & Hrun & _).
  exists f'. exact Hrun.
Defined.


(** Opening [hello]. *)
Lemma Open_success_tags_logger_witness :
  ∃ f',
    Open (stub.fresh 128 3) (stub.start stub.remote)
      = (Done (f', None), stub.start stub.remote) ∧
    Log f' = [("function", "hello")].
Proof.
  eexists. split; [lazy; reflexivity|].
  refine (proj1 (Open_success_tags_logger (stub.fresh 128 3)
                   (stub.start stub.remote) _ _ _)).
  lazy. reflexivity.
Defined.
